(** * FinStrive: the ledger importer, embedded and verified

    A shallow embedding of [backend/app/parser.py], [backend/app/models.py]
    and [backend/app/importer.py].

    Conventions of the embedding.
    - A Python [str] is a Rocq [string]: the sequence of the bytes of its
      UTF-8 encoding.  Splitting, joining, prefix tests, comparison and
      [encode()] agree with Python on every text; the character classes
      [\s], [\d] and [\w] of the regular expressions and of [strip] are
      those of the ASCII range.
    - [Decimal] is a signed coefficient and an exponent, with the rounding
      of the default context (28 significant digits, half even).
    - The SQLAlchemy session is a record of four tables, each the list of
      its rows in insertion order.  The session does not flush on its
      own; the importer flushes the accounts and transactions it adds,
      and no query looks for a row added without a flush before the
      commit, except in [update_account_balances], whose pending rows are
      kept apart.  Primary keys are assigned as SQLite does, one above
      the largest key of the table.
    - Logging is not part of the state and is left out. *)

From Stdlib Require Import ZArith NArith List String Ascii Bool Lia.
From Stdlib Require Import Permutation Sorted DecimalString.
From stdpp Require Import gmap strings.
Import ListNotations.
Open Scope string_scope.

(** ** Python strings *)

Module Py.

Definition code (c : ascii) : N := N_of_ascii c.

(** [str.isspace] and [\s] on the ASCII range: TAB, LF, VT, FF, CR, the
    four separators FS GS RS US, and the space. *)
Definition isspace (c : ascii) : bool :=
  let n := code c in
  ((9 <=? n) && (n <=? 13) || (28 <=? n) && (n <=? 32))%N.

(** [\d] on the ASCII range. *)
Definition isdigit (c : ascii) : bool :=
  let n := code c in ((48 <=? n) && (n <=? 57))%N.

(** [\w] on the ASCII range: letters, digits and the underscore. *)
Definition isword (c : ascii) : bool :=
  let n := code c in
  (isdigit c || (65 <=? n) && (n <=? 90) || (97 <=? n) && (n <=? 122)
   || (n =? 95))%N.

Definition newline : ascii := ascii_of_N 10.

Fixpoint lstrip (s : string) : string :=
  match s with
  | String c s' => if isspace c then lstrip s' else s
  | EmptyString => EmptyString
  end.

Fixpoint rstrip (s : string) : string :=
  match s with
  | String c s' =>
      match rstrip s' with
      | EmptyString => if isspace c then EmptyString else String c EmptyString
      | r => String c r
      end
  | EmptyString => EmptyString
  end.

Definition strip (s : string) : string := lstrip (rstrip s).

(** The truth value of a string: non-empty. *)
Definition truthy (s : string) : bool :=
  match s with EmptyString => false | _ => true end.

(** [s.split(sep)] for a one-character separator: never the empty list. *)
Fixpoint split (sep : ascii) (s : string) : list string :=
  match s with
  | EmptyString => [EmptyString]
  | String c s' =>
      if Ascii.eqb c sep then EmptyString :: split sep s'
      else match split sep s' with
           | h :: t => String c h :: t
           | [] => [String c EmptyString]
           end
  end.

(** [sep.join(parts)]. *)
Definition join (sep : string) (parts : list string) : string :=
  String.concat sep parts.

(** [s.replace(c, '')]. *)
Fixpoint remove (c : ascii) (s : string) : string :=
  match s with
  | EmptyString => EmptyString
  | String a s' => if Ascii.eqb a c then remove c s' else String a (remove c s')
  end.

Definition startswith (s p : string) : bool := String.prefix p s.

(** [enumerate(l)]. *)
Definition enumerate {A} (l : list A) : list (nat * A) :=
  combine (seq 0 (List.length l)) l.

(** A decimal numeral of a natural number, as [str(int)] prints it. *)
Definition str_of_N (n : N) : string := NilZero.string_of_uint (N.to_uint n).

(** [int(s)] for a string of ASCII digits (0 for the empty string, which
    the callers exclude). *)
Fixpoint int_of_digits_from (acc : N) (s : string) : N :=
  match s with
  | EmptyString => acc
  | String c s' => int_of_digits_from (acc * 10 + (code c - 48))%N s'
  end.
Definition int_of_digits (s : string) : N := int_of_digits_from 0%N s.

Fixpoint zeros (n : nat) : string :=
  match n with O => EmptyString | S n' => String "0" (zeros n') end.

(** ["%0*d"]: left padding with zeros up to [width]. *)
Definition zfill (width : nat) (s : string) : string :=
  zeros (width - String.length s) ++ s.

End Py.

(** ** Regular expressions, as Python's [re] runs them

    A backtracking matcher over the syntax of the patterns used by
    [LedgerParser]: alternatives are tried left to right, a greedy
    repetition tries one more iteration before it tries to stop, a lazy
    one the other way round, and a group records what its body consumed
    in the attempt that succeeds. *)

Module re.

Inductive regex : Type :=
| Eps : regex
| Cls : (ascii -> bool) -> regex
| Seq : regex -> regex -> regex
| Alt : regex -> regex -> regex
| Star : bool -> regex -> regex      (* [true]: greedy; [false]: lazy *)
| Grp : nat -> regex -> regex
| Bol : regex                        (* ^ *)
| Eol : regex.                       (* $ *)

Definition groups := list (nat * string).

Definition cont := nat -> string -> groups -> option groups.

Definition orelse {A} (a b : option A) : option A :=
  match a with Some _ => a | None => b end.

(** [$] without MULTILINE: the end of the string, or just before a
    newline that ends the string. *)
Definition at_end (s : string) : bool :=
  match s with
  | EmptyString => true
  | String c EmptyString => Ascii.eqb c Py.newline
  | _ => false
  end.

Fixpoint run (r : regex) (pos : nat) (s : string) (g : groups) (k : cont)
  {struct r} : option groups :=
  match r with
  | Eps => k pos s g
  | Cls p =>
      match s with
      | String c s' => if p c then k (S pos) s' g else None
      | EmptyString => None
      end
  | Seq a b => run a pos s g (fun pos' s' g' => run b pos' s' g' k)
  | Alt a b => orelse (run a pos s g k) (run b pos s g k)
  | Star greedy body =>
      (fix loop (fuel : nat) (pos : nat) (s : string) (g : groups)
         {struct fuel} : option groups :=
         match fuel with
         | O => k pos s g
         | S fuel' =>
             let more :=
               run body pos s g
                 (fun pos' s' g' =>
                    if Nat.ltb (String.length s') (String.length s)
                    then loop fuel' pos' s' g' else None) in
             if greedy then orelse more (k pos s g)
             else orelse (k pos s g) more
         end) (S (String.length s)) pos s g
  | Grp n body =>
      run body pos s g
        (fun pos' s' g' => k pos' s' ((n, substring 0 (pos' - pos) s) :: g'))
  | Bol => if Nat.eqb pos 0 then k pos s g else None
  | Eol => if at_end s then k pos s g else None
  end.

(** [pattern.match(s)]: anchored at the start of [s]. *)
Definition match_ (r : regex) (s : string) : option groups :=
  run r 0 s [] (fun _ _ g => Some g).

(** [pattern.search(s)]: the match at the leftmost position that has one. *)
Fixpoint search_from (r : regex) (pos : nat) (s : string) : option groups :=
  match run r pos s [] (fun _ _ g => Some g) with
  | Some g => Some g
  | None =>
      match s with
      | String _ s' => search_from r (S pos) s'
      | EmptyString => None
      end
  end.
Definition search (r : regex) (s : string) : option groups := search_from r 0 s.

(** [m.group(n)]: [None] for a group that took no part in the match. *)
Fixpoint group (g : groups) (n : nat) : option string :=
  match g with
  | [] => None
  | (i, v) :: g' => if Nat.eqb i n then Some v else group g' n
  end.

(** Abbreviations for the pattern syntax. *)
Definition chr (c : ascii) : regex := Cls (Ascii.eqb c).
Fixpoint lit (s : string) : regex :=
  match s with
  | EmptyString => Eps
  | String c s' => Seq (chr c) (lit s')
  end.
Definition plus (r : regex) : regex := Seq r (Star true r).          (* r+ *)
Definition plus_lazy (r : regex) : regex := Seq r (Star false r).    (* r+? *)
Definition opt (r : regex) : regex := Alt r Eps.                     (* r? *)
Fixpoint times (n : nat) (r : regex) : regex :=                      (* r{n} *)
  match n with O => Eps | S n' => Seq r (times n' r) end.
Fixpoint seqs (l : list regex) : regex :=
  match l with [] => Eps | r :: l' => Seq r (seqs l') end.

Definition s_ : regex := Cls Py.isspace.                             (* \s *)
Definition S_ : regex := Cls (fun c => negb (Py.isspace c)).         (* \S *)
Definition d_ : regex := Cls Py.isdigit.                             (* \d *)
Definition w_ : regex := Cls Py.isword.                              (* \w *)
Definition dot : regex := Cls (fun c => negb (Ascii.eqb c Py.newline)). (* . *)

End re.

(** ** [decimal.Decimal]

    A finite decimal is [coef * 10 ^ exp].  The parser builds only values
    of sign plus, and no operation below turns a zero negative, so the
    coefficient carries the sign.  Results of arithmetic are rounded to
    the precision of the default context, [ROUND_HALF_EVEN]; the exponent
    limits of that context (999999 either way) are out of reach. *)

Module Decimal.

Record t : Type := mk { coef : Z; exp : Z }.

Definition prec : Z := 28.

(** [len(self._int)]: the number of digits of the coefficient. *)
Definition digits (c : Z) : Z :=
  Z.of_nat (String.length (Py.str_of_N (Z.abs_N c))).

(** [Decimal._fix]: round to [prec] significant digits. *)
Definition fix_ (d : t) : t :=
  let n := digits (coef d) in
  if (n <=? prec)%Z then d
  else
    let k := (n - prec)%Z in
    let p := (10 ^ k)%Z in
    let a := Z.abs (coef d) in
    let q := (a / p)%Z in
    let r := (a mod p)%Z in
    let up := ((2 * r >? p) || ((2 * r =? p) && Z.odd q))%Z in
    let q1 := if up then (q + 1)%Z else q in
    if (digits q1 >? prec)%Z
    then mk (Z.sgn (coef d) * (q1 / 10)) (exp d + k + 1)
    else mk (Z.sgn (coef d) * q1) (exp d + k).

(** [a + b]: the exact sum on the smaller exponent, then rounded. *)
Definition add (a b : t) : t :=
  let e := Z.min (exp a) (exp b) in
  fix_ (mk (coef a * 10 ^ (exp a - e) + coef b * 10 ^ (exp b - e)) e).

(** [-a]. *)
Definition neg (a : t) : t := fix_ (mk (- coef a) (exp a)).

(** [abs(a)]. *)
Definition abs (a : t) : t := fix_ (mk (Z.abs (coef a)) (exp a)).

(** [Decimal(n)] for an [int], and the start value [0] of [sum]. *)
Definition of_int (n : Z) : t := mk n 0.

(** [sum(l)]: a left fold of [+] that starts from the integer 0. *)
Definition sum (l : list t) : t := fold_left add l (of_int 0).

(** [bool(a)]: a zero is false. *)
Definition truthy (a : t) : bool := negb (coef a =? 0)%Z.

(** [a == b] and [a > b]: comparison of the values. *)
Definition cmp (a b : t) : comparison :=
  let e := Z.min (exp a) (exp b) in
  (coef a * 10 ^ (exp a - e) ?= coef b * 10 ^ (exp b - e))%Z.
Definition eqb (a b : t) : bool :=
  match cmp a b with Eq => true | _ => false end.
Definition gtb (a b : t) : bool :=
  match cmp a b with Gt => true | _ => false end.

(** [Decimal("0.00")] and [Decimal("0.01")]. *)
Definition zero_00 : t := mk 0 (-2).
Definition cent : t := mk 1 (-2).

(** [str(a)] ([Decimal.__str__]): plain notation while the exponent is
    not positive and the number has more than -6 digits left of the
    point, scientific notation otherwise. *)
Definition str (d : t) : string :=
  let sign := if (coef d <? 0)%Z then "-" else "" in
  let int_ := Py.str_of_N (Z.abs_N (coef d)) in
  let len := Z.of_nat (String.length int_) in
  let leftdigits := (exp d + len)%Z in
  let dotplace :=
    if ((exp d <=? 0) && (-6 <? leftdigits))%Z then leftdigits else 1%Z in
  let intpart :=
    if (dotplace <=? 0)%Z then "0"
    else if (len <=? dotplace)%Z
         then int_ ++ Py.zeros (Z.to_nat (dotplace - len))
         else substring 0 (Z.to_nat dotplace) int_ in
  let fracpart :=
    if (dotplace <=? 0)%Z then "." ++ Py.zeros (Z.to_nat (- dotplace)) ++ int_
    else if (len <=? dotplace)%Z then ""
         else "." ++ substring (Z.to_nat dotplace) (Z.to_nat (len - dotplace)) int_ in
  let e :=
    if (leftdigits =? dotplace)%Z then ""
    else "E" ++ (if (0 <=? leftdigits - dotplace)%Z then "+" else "-")
             ++ Py.str_of_N (Z.abs_N (leftdigits - dotplace)) in
  sign ++ intpart ++ fracpart ++ e.

(** [Decimal(s)] on the strings group 2 of [AMOUNT_PATTERN] can hold
    once the commas are removed: digits, then possibly a point and
    digits.  A string without any digit is a conversion syntax error:
    [None] stands for the [decimal.InvalidOperation] raised. *)
Definition of_str (s : string) : option t :=
  match Py.split "." s with
  | [i] =>
      if Py.truthy i then Some (mk (Z.of_N (Py.int_of_digits i)) 0) else None
  | [i; f] =>
      if Py.truthy (i ++ f)
      then Some (mk (Z.of_N (Py.int_of_digits (i ++ f)))
                    (- Z.of_nat (String.length f)))
      else None
  | _ => None
  end.

End Decimal.

(** ** [datetime.datetime]

    [strptime] with the format [%Y/%m/%d] builds midnight values only, so
    a [datetime] is its calendar date. *)

Module datetime.

Record t : Type := mk { year : N; month : N; day : N }.

Definition is_leap (y : N) : bool :=
  ((y mod 4 =? 0) && negb (y mod 100 =? 0) || (y mod 400 =? 0))%N.

Definition days_in_month (y m : N) : N :=
  if (m =? 2)%N then (if is_leap y then 29 else 28)%N
  else if ((m =? 4) || (m =? 6) || (m =? 9) || (m =? 11))%N then 30%N
  else 31%N.

(** [datetime.strptime(s, "%Y/%m/%d")] on a string that matched
    [\d{4}/\d{2}/\d{2}]; [None] stands for the [ValueError] raised. *)
Definition strptime (s : string) : option t :=
  let y := Py.int_of_digits (substring 0 4 s) in
  let m := Py.int_of_digits (substring 5 2 s) in
  let d := Py.int_of_digits (substring 8 2 s) in
  if ((1 <=? y) && (1 <=? m) && (m <=? 12) && (1 <=? d)
      && (d <=? days_in_month y m))%N
  then Some (mk y m d) else None.

(** [d.isoformat()] of a midnight value. *)
Definition isoformat (d : t) : string :=
  Py.zfill 4 (Py.str_of_N (year d)) ++ "-" ++ Py.zfill 2 (Py.str_of_N (month d))
    ++ "-" ++ Py.zfill 2 (Py.str_of_N (day d)) ++ "T00:00:00".

End datetime.

(** ** [hashlib.sha256] (FIPS 180-4) *)

Module hashlib.

Local Open Scope N_scope.

Definition mask32 : N := 4294967295.
Definition add32 (a b : N) : N := N.land (a + b) mask32.
Definition rotr (n x : N) : N :=
  N.lor (N.shiftr x n) (N.land (N.shiftl x (32 - n)) mask32).
Definition xor3 (a b c : N) : N := N.lxor (N.lxor a b) c.

Definition Ch (x y z : N) : N :=
  N.lxor (N.land x y) (N.land (N.lxor x mask32) z).
Definition Maj (x y z : N) : N :=
  xor3 (N.land x y) (N.land x z) (N.land y z).
Definition bsig0 (x : N) : N := xor3 (rotr 2 x) (rotr 13 x) (rotr 22 x).
Definition bsig1 (x : N) : N := xor3 (rotr 6 x) (rotr 11 x) (rotr 25 x).
Definition ssig0 (x : N) : N := xor3 (rotr 7 x) (rotr 18 x) (N.shiftr x 3).
Definition ssig1 (x : N) : N := xor3 (rotr 17 x) (rotr 19 x) (N.shiftr x 10).

(** The constants are taken from the primes, as the standard defines
    them: the first 32 bits of the fractional part of the cube root
    (square root, for the initial hash value) of the n-th prime. *)
Definition is_prime (n : N) : bool :=
  forallb (fun d => negb (n mod N.of_nat d =? 0)) (seq 2 (N.to_nat n - 2)).

Definition primes (k : nat) : list N :=
  firstn k (List.filter is_prime (map N.of_nat (seq 2 400))).

(** The integer cube root, bit by bit from the top. *)
Fixpoint cube_root_from (bit : nat) (n acc : N) : N :=
  match bit with
  | O => acc
  | S bit' =>
      let c := acc + 2 ^ N.of_nat bit' in
      if c * c * c <=? n then cube_root_from bit' n c
      else cube_root_from bit' n acc
  end.

Definition frac32_cube_root (p : N) : N :=
  N.land (cube_root_from 40 (p * 2 ^ 96) 0) mask32.

Definition frac32_square_root (p : N) : N :=
  N.land (N.sqrt (p * 2 ^ 64)) mask32.

Definition K : list N := Eval vm_compute in map frac32_cube_root (primes 64).

Definition H0 : list N := Eval vm_compute in map frac32_square_root (primes 8).

(** The message followed by the bit 1, zeros up to 56 modulo 64, and
    the bit length on eight bytes, most significant first. *)
Definition be_bytes (n : nat) (x : N) : list N :=
  map (fun i => N.land (N.shiftr x (8 * N.of_nat i)) 255) (rev (seq 0 n)).

Definition pad (msg : list N) : list N :=
  let len := N.of_nat (List.length msg) in
  let k := (64 + 55 - len mod 64) mod 64 in
  msg ++ [128] ++ repeat 0 (N.to_nat k) ++ be_bytes 8 (8 * len).

Fixpoint words (fuel : nat) (bytes : list N) : list N :=
  match fuel, bytes with
  | S fuel', a :: b :: c :: d :: rest =>
      (N.shiftl a 24 + N.shiftl b 16 + N.shiftl c 8 + d) :: words fuel' rest
  | _, _ => []
  end.

(** The message schedule, latest word first. *)
Fixpoint schedule (n : nat) (w : list N) : list N :=
  match n with
  | O => w
  | S n' =>
      let x := add32 (add32 (ssig1 (nth 1 w 0)) (nth 6 w 0))
                     (add32 (ssig0 (nth 14 w 0)) (nth 15 w 0)) in
      schedule n' (x :: w)
  end.

Definition round (st : list N) (kw : N * N) : list N :=
  match st with
  | [a; b; c; d; e; f; g; h] =>
      let t1 := add32 (add32 (add32 h (bsig1 e)) (add32 (Ch e f g) (fst kw)))
                      (snd kw) in
      let t2 := add32 (bsig0 a) (Maj a b c) in
      [add32 t1 t2; a; b; c; add32 d t1; e; f; g]
  | _ => st
  end.

Definition compress (h : list N) (block : list N) : list N :=
  let w := rev (schedule 48 (rev block)) in
  let st := fold_left round (combine K w) h in
  map (fun p => add32 (fst p) (snd p)) (combine h st).

Fixpoint blocks (fuel : nat) (ws : list N) : list (list N) :=
  match fuel, ws with
  | S fuel', _ :: _ => firstn 16 ws :: blocks fuel' (skipn 16 ws)
  | _, _ => []
  end.

Definition hex_digit (n : N) : ascii :=
  ascii_of_N (if n <? 10 then 48 + n else 87 + n).

Definition hex_word (x : N) : string :=
  string_of_list_ascii
    (map (fun i => hex_digit (N.land (N.shiftr x (4 * N.of_nat i)) 15))
       (rev (seq 0 8))).

(** [hashlib.sha256(s.encode()).hexdigest()]. *)
Definition sha256_hexdigest (s : string) : string :=
  let bytes := pad (map N_of_ascii (list_ascii_of_string s)) in
  let ws := words (List.length bytes) bytes in
  let h := fold_left compress (blocks (List.length ws) ws) H0 in
  String.concat "" (map hex_word h).

End hashlib.

(** ** Exceptions *)

Inductive exn : Type :=
| FileNotFoundError
| InvalidOperation        (* decimal.InvalidOperation, an ArithmeticError *)
| AttributeError.

Inductive result (A : Type) : Type :=
| Ok (a : A)
| Raise (e : exn).
Arguments Ok {A} a.
Arguments Raise {A} e.

#[global] Instance result_ret : MRet result := @Ok.
#[global] Instance result_bind : MBind result :=
  fun A B (f : A -> result B) (r : result A) =>
    match r with Ok a => f a | Raise e => Raise e end.

(** A [for] loop whose body may raise: the first exception ends it. *)
Fixpoint for_each {A S} (body : S -> A -> result S) (l : list A) (st : S)
  : result S :=
  match l with
  | [] => Ok st
  | x :: l' => st' ← body st x; for_each body l' st'
  end.

(** ** [app/parser.py] *)

Module parser.

Module Posting.
Record t : Type := mk
  { account : string;
    amount : option Decimal.t;      (* default [None] *)
    currency : string }.            (* default ["INR"] *)
End Posting.

Module Transaction.
Record t : Type := mk
  { date : datetime.t;
    payee : string;
    postings : list Posting.t }.
End Transaction.

(** [sorted(l, key=lambda p: p.account)]: the stable sort on the
    account path, strings compared as Python compares them. *)
Fixpoint insert_by_account (p : Posting.t) (l : list Posting.t)
  : list Posting.t :=
  match l with
  | [] => [p]
  | q :: l' =>
      if String.leb (Posting.account p) (Posting.account q)
      then p :: q :: l'
      else q :: insert_by_account p l'
  end.

Definition sorted_by_account (l : list Posting.t) : list Posting.t :=
  fold_right insert_by_account [] l.

(** [str(posting.amount) if posting.amount else ""]. *)
Definition amount_str (p : Posting.t) : string :=
  match Posting.amount p with
  | Some a => if Decimal.truthy a then Decimal.str a else ""
  | None => ""
  end.

(** The text that is hashed. *)
Definition hash_content (t : Transaction.t) : string :=
  fold_left
    (fun content posting =>
       content ++ Posting.account posting ++ ":" ++ amount_str posting
               ++ ":" ++ Posting.currency posting ++ "|")
    (sorted_by_account (Transaction.postings t))
    (datetime.isoformat (Transaction.date t) ++ "|"
       ++ Transaction.payee t ++ "|").

Definition calculate_hash (t : Transaction.t) : string :=
  hashlib.sha256_hexdigest (hash_content t).

(** *** [LedgerParser] *)

Import re.

(** The rupee sign U+20B9, in UTF-8. *)
Definition rupee : string :=
  String (ascii_of_N 226) (String (ascii_of_N 130) (String (ascii_of_N 185) "")).

(** [^alias\s+(\w+)=(.+)$|^(\w+)=(.+)$] *)
Definition ALIAS_PATTERN : regex :=
  Alt (seqs [Bol; lit "alias"; plus s_; Grp 1 (plus w_); chr "=";
             Grp 2 (plus dot); Eol])
      (seqs [Bol; Grp 3 (plus w_); chr "="; Grp 4 (plus dot); Eol]).

(** [^(\d{4}/\d{2}/\d{2})\s+(.+)$] *)
Definition DATE_PATTERN : regex :=
  seqs [Bol;
        Grp 1 (seqs [times 4 d_; chr "/"; times 2 d_; chr "/"; times 2 d_]);
        plus s_; Grp 2 (plus dot); Eol].

(** [^\s{4}(\S+)\s+(.+?)$] *)
Definition POSTING_PATTERN : regex :=
  seqs [Bol; times 4 s_; Grp 1 (plus S_); plus s_; Grp 2 (plus_lazy dot); Eol].

(** [^\s{4}(\S+)\s*$] *)
Definition POSTING_ACCOUNT_ONLY_PATTERN : regex :=
  seqs [Bol; times 4 s_; Grp 1 (plus S_); Star true s_; Eol].

(** [([₹]?)\s*([\d,]+(?:\.\d{2})?)] *)
Definition AMOUNT_PATTERN : regex :=
  seqs [Grp 1 (opt (lit rupee)); Star true s_;
        Grp 2 (Seq (plus (Cls (fun c => Py.isdigit c || Ascii.eqb c ",")))
                   (opt (seqs [chr "."; times 2 d_])))].

(** [^\s*;] *)
Definition COMMENT_PATTERN : regex :=
  seqs [Bol; Star true s_; chr ";"].

Definition group_or_empty (m : groups) (n : nat) : string :=
  match group m n with Some s => s | None => "" end.

Definition is_match (m : option groups) : bool :=
  match m with Some _ => true | None => false end.

(** [self.aliases]. *)
Abbreviation aliases_t := (gmap string string).

Definition expand_aliases (aliases : aliases_t) (account : string) : string :=
  let parts := Py.split ":" account in
  let expanded_parts :=
    fold_left
      (fun expanded_parts part =>
         match aliases !! part with
         | Some v => (expanded_parts ++ Py.split ":" v)%list
         | None => (expanded_parts ++ [part])%list
         end)
      parts [] in
  Py.join ":" expanded_parts.

(** [Decimal(amount_value)] raises [InvalidOperation], which is neither
    of the two classes the [except] clause names: it leaves the
    function. *)
Definition parse_amount (amount_str : string)
  : result (option Decimal.t * string) :=
  let amount_str := Py.strip amount_str in
  match search AMOUNT_PATTERN amount_str with
  | Some m =>
      let currency_symbol := group_or_empty m 1 in
      let amount_value := Py.remove "," (group_or_empty m 2) in
      let currency :=
        if String.eqb currency_symbol rupee then "INR" else "INR" in
      match Decimal.of_str amount_value with
      | Some amount => Ok (Some amount, currency)
      | None => Raise InvalidOperation
      end
  | None => Ok (None, "INR")
  end.

(** [(key, value)] of a match of [ALIAS_PATTERN]: groups 1 and 2 of
    the form [alias KEY=VALUE], groups 3 and 4 of the form [KEY=VALUE]. *)
Definition alias_entry (m : groups) : string * string :=
  if Py.truthy (group_or_empty m 1)
  then (group_or_empty m 1, Py.strip (group_or_empty m 2))
  else (group_or_empty m 3, Py.strip (group_or_empty m 4)).

Definition parse_aliases_step (st : aliases_t * list string * bool)
  (line : string) : aliases_t * list string * bool :=
  let '(aliases, remaining_lines, in_aliases) := st in
  let line := Py.rstrip line in
  if in_aliases && negb (Py.truthy (Py.strip line)) then st
  else
    match match_ ALIAS_PATTERN line with
    | Some m =>
        let '(key, value) := alias_entry m in
        (<[key := value]> aliases, remaining_lines, true)
    | None => (aliases, (remaining_lines ++ [line])%list, false)
    end.

(** Returns the alias table next to the remaining lines. *)
Definition parse_aliases (aliases : aliases_t) (lines : list string)
  : aliases_t * list string :=
  let '(aliases', remaining_lines, _) :=
    fold_left parse_aliases_step lines (aliases, [], true) in
  (aliases', remaining_lines).

Definition is_blank_or_comment (line : string) : bool :=
  negb (Py.truthy (Py.strip line)) || is_match (match_ COMMENT_PATTERN line).

Definition parse_posting_line (aliases : aliases_t)
  (postings : list Posting.t) (posting_line : string)
  : result (list Posting.t) :=
  let posting_line := Py.rstrip posting_line in
  if is_blank_or_comment posting_line then Ok postings
  else
    match match_ POSTING_PATTERN posting_line with
    | Some m =>
        let account := expand_aliases aliases (Py.strip (group_or_empty m 1)) in
        let amount_str := Py.strip (group_or_empty m 2) in
        '(amount, currency) ← parse_amount amount_str;
        Ok (postings ++ [Posting.mk account amount currency])%list
    | None =>
        match match_ POSTING_ACCOUNT_ONLY_PATTERN posting_line with
        | Some m =>
            let account :=
              expand_aliases aliases (Py.strip (group_or_empty m 1)) in
            Ok (postings ++ [Posting.mk account None "INR"])%list
        | None => Ok postings
        end
    end.

Definition parse_transaction (aliases : aliases_t) (date_line : string)
  (posting_lines : list string) : result (option Transaction.t) :=
  match match_ DATE_PATTERN date_line with
  | None => Ok None
  | Some date_match =>
      let date_str := group_or_empty date_match 1 in
      let payee := Py.strip (group_or_empty date_match 2) in
      match datetime.strptime date_str with
      | None => Ok None
      | Some date =>
          postings ← for_each (parse_posting_line aliases) posting_lines [];
          match postings with
          | [] => Ok None
          | _ => Ok (Some (Transaction.mk date payee postings))
          end
      end
  end.

(** The state of the loop of [parse_file]:
    [(transactions, current_date_line, current_postings)]. *)
Definition file_state : Type :=
  list Transaction.t * option string * list string.

(** [if current_date_line: transaction = self.parse_transaction(...)]. *)
Definition save_transaction (aliases : aliases_t) (st : file_state)
  : result (list Transaction.t) :=
  let '(transactions, current_date_line, current_postings) := st in
  match current_date_line with
  | Some date_line =>
      if Py.truthy date_line then
        transaction ← parse_transaction aliases date_line current_postings;
        match transaction with
        | Some t => Ok (transactions ++ [t])%list
        | None => Ok transactions
        end
      else Ok transactions
  | None => Ok transactions
  end.

Definition parse_file_step (aliases : aliases_t) (st : file_state)
  (line : string) : result file_state :=
  let '(transactions, current_date_line, current_postings) := st in
  let line := Py.rstrip line in
  if is_blank_or_comment line then Ok st
  else if is_match (match_ DATE_PATTERN line) then
    transactions' ← save_transaction aliases st;
    Ok (transactions', Some line, [])
  else
    match current_date_line with
    | Some date_line =>
        if Py.truthy date_line
        then Ok (transactions, current_date_line, (current_postings ++ [line])%list)
        else Ok st
    | None => Ok st
    end.

(** [parse_file], from the lines [f.readlines()] returns. *)
Definition parse_file (aliases : aliases_t) (lines : list string)
  : result (list Transaction.t) :=
  let '(aliases', lines') := parse_aliases aliases lines in
  st ← for_each (parse_file_step aliases') lines' ([], None, []);
  save_transaction aliases' st.

(** [parse_ledger_file]: a fresh [LedgerParser], no alias yet. *)
Definition parse_ledger_file (lines : list string)
  : result (list Transaction.t) :=
  parse_file ∅ lines.

End parser.

(** ** [app/models.py]

    The columns the importer reads or writes; the time stamps filled in
    by the server and the description, which the importer never sets,
    are left out. *)

Module models.

Module Account.
Record t : Type := mk
  { id : nat;
    name : string;
    full_path : string;
    parent_id : option nat }.
End Account.

Module Transaction.
Record t : Type := mk
  { id : nat;
    date : datetime.t;
    payee : string;
    transaction_hash : option string }.     (* nullable *)
End Transaction.

Module Posting.
Record t : Type := mk
  { id : nat;
    transaction_id : nat;
    account_id : nat;
    amount : Decimal.t;
    currency : string }.
End Posting.

Module AccountBalance.
Record t : Type := mk
  { id : nat;
    account_id : nat;
    balance : Decimal.t;
    currency : string }.
End AccountBalance.

(** The session: the four tables. *)
Module Session.
Record t : Type := mk
  { accounts : list Account.t;
    transactions : list Transaction.t;
    postings : list Posting.t;
    account_balances : list AccountBalance.t }.

Definition empty : t := mk [] [] [] [].
End Session.

(** The key of the next row of a table whose keys are [ids]. *)
Definition next_id (ids : list nat) : nat := S (list_max ids).

End models.

(** ** [app/importer.py] *)

Module importer.

Local Open Scope list_scope.

Module ParsedTransaction := parser.Transaction.
Module ParsedPosting := parser.Posting.
Module Account := models.Account.
Module Transaction := models.Transaction.
Module PostingModel := models.Posting.
Module AccountBalance := models.AccountBalance.
Module Session := models.Session.

(** [settings.ledger_file_path]. *)
Definition settings_ledger_file_path : string :=
  "/home/nox/Nox/Finance/transactions.ledger".

(** [db.query(Account).filter(Account.full_path == path).first()]. *)
Definition account_by_path (db : Session.t) (path : string)
  : option Account.t :=
  find (fun a => String.eqb (Account.full_path a) path) (Session.accounts db).

(** [db.query(Account).filter(Account.id == account_id).first()]. *)
Definition account_by_id (db : Session.t) (account_id : nat)
  : option Account.t :=
  find (fun a => Nat.eqb (Account.id a) account_id) (Session.accounts db).

(** [db.query(Transaction).filter(Transaction.transaction_hash == h).first()]. *)
Definition transaction_by_hash (db : Session.t) (h : string)
  : option Transaction.t :=
  find (fun t => match Transaction.transaction_hash t with
                 | Some h' => String.eqb h' h
                 | None => false
                 end)
    (Session.transactions db).

(** [db.add(Account(...)); db.flush()]. *)
Definition add_account (db : Session.t) (name full_path : string)
  (parent_id : option nat) : Account.t * Session.t :=
  let account :=
    Account.mk (models.next_id (map Account.id (Session.accounts db)))
      name full_path parent_id in
  (account,
   Session.mk (Session.accounts db ++ [account]) (Session.transactions db)
     (Session.postings db) (Session.account_balances db)).

(** [db.add(Transaction(...)); db.flush()]. *)
Definition add_transaction (db : Session.t) (date : datetime.t)
  (payee transaction_hash : string) : Transaction.t * Session.t :=
  let transaction :=
    Transaction.mk (models.next_id (map Transaction.id (Session.transactions db)))
      date payee (Some transaction_hash) in
  (transaction,
   Session.mk (Session.accounts db) (Session.transactions db ++ [transaction])
     (Session.postings db) (Session.account_balances db)).

(** [db.add(PostingModel(...))]. *)
Definition add_posting (db : Session.t) (transaction_id account_id : nat)
  (amount : Decimal.t) (currency : string) : Session.t :=
  let posting_model :=
    PostingModel.mk (models.next_id (map PostingModel.id (Session.postings db)))
      transaction_id account_id amount currency in
  Session.mk (Session.accounts db) (Session.transactions db)
    (Session.postings db ++ [posting_model]) (Session.account_balances db).

(** One turn of the loop over [enumerate(parts)]. *)
Definition create_prefix (parts : list string)
  (st : option Account.t * Session.t) (ip : nat * string)
  : option Account.t * Session.t :=
  let '(parent, db) := st in
  let '(i, part) := ip in
  let current_path := Py.join ":" (firstn (i + 1) parts) in
  match account_by_path db current_path with
  | Some account => (Some account, db)
  | None =>
      let '(account, db') :=
        add_account db part current_path (option_map Account.id parent) in
      (Some account, db')
  end.

(** Returns [parent], which is [None] only if the loop never ran. *)
Definition get_or_create_account (db : Session.t) (account_path : string)
  : option Account.t * Session.t :=
  match account_by_path db account_path with
  | Some existing => (Some existing, db)
  | None =>
      let parts := Py.split ":" account_path in
      fold_left (create_prefix parts) (Py.enumerate parts) (None, db)
  end.

Definition has_amount (p : ParsedPosting.t) : bool :=
  match ParsedPosting.amount p with Some _ => true | None => false end.

(** [[p.amount for p in postings if p.amount is not None]]. *)
Definition amounts (postings : list ParsedPosting.t) : list Decimal.t :=
  flat_map (fun p => match ParsedPosting.amount p with
                     | Some a => [a]
                     | None => []
                     end) postings.

(** The assignments to the posting without amount, seen through the
    list it belongs to: the caller has checked that it is the only one. *)
Definition set_missing (amount : Decimal.t) (currency : string)
  (postings : list ParsedPosting.t) : list ParsedPosting.t :=
  map (fun p => if has_amount p then p
                else ParsedPosting.mk (ParsedPosting.account p)
                       (Some amount) currency)
    postings.

(** The check after the inference chooses between a warning and a
    debug record and nothing else: [abs(transaction_sum) > Decimal("0.01")]. *)
Definition does_not_balance (postings : list ParsedPosting.t) : bool :=
  match amounts postings with
  | [] => false
  | all_amounts =>
      Decimal.gtb (Decimal.abs (Decimal.sum all_amounts)) Decimal.cent
  end.

(** One turn of the loop that creates the posting rows.  [account.id]
    on [None] is an [AttributeError]. *)
Definition create_posting (transaction : Transaction.t) (db : Session.t)
  (posting : ParsedPosting.t) : result unit * Session.t :=
  let '(account, db1) :=
    get_or_create_account db (ParsedPosting.account posting) in
  match account with
  | None => (Raise AttributeError, db1)
  | Some account =>
      let amount := match ParsedPosting.amount posting with
                    | Some a => a
                    | None => Decimal.zero_00
                    end in
      (Ok tt,
       add_posting db1 (Transaction.id transaction) (Account.id account)
         amount (ParsedPosting.currency posting))
  end.

Fixpoint create_postings (transaction : Transaction.t) (db : Session.t)
  (postings : list ParsedPosting.t) : result unit * Session.t :=
  match postings with
  | [] => (Ok tt, db)
  | posting :: rest =>
      match create_posting transaction db posting with
      | (Ok _, db') => create_postings transaction db' rest
      | (Raise e, db') => (Raise e, db')
      end
  end.

(** [None] for a transaction that is already there or that is
    rejected, the new row otherwise. *)
Definition get_or_create_transaction (db : Session.t)
  (parsed_transaction : ParsedTransaction.t)
  : result (option Transaction.t) * Session.t :=
  let transaction_hash := parser.calculate_hash parsed_transaction in
  match transaction_by_hash db transaction_hash with
  | Some existing => (Ok None, db)
  | None =>
      let '(transaction, db1) :=
        add_transaction db (ParsedTransaction.date parsed_transaction)
          (ParsedTransaction.payee parsed_transaction) transaction_hash in
      let postings := ParsedTransaction.postings parsed_transaction in
      let postings_with_amounts := List.filter has_amount postings in
      let postings_without_amounts :=
        List.filter (fun p => negb (has_amount p)) postings in
      let total_amount :=
        match postings_with_amounts with
        | [] => Decimal.zero_00
        | _ => Decimal.sum (amounts postings_with_amounts)
        end in
      let persist postings' :=
        match create_postings transaction db1 postings' with
        | (Ok _, db2) => (Ok (Some transaction), db2)
        | (Raise e, db2) => (Raise e, db2)
        end in
      if Nat.eqb (List.length postings_without_amounts) 1
         && negb (Nat.eqb (List.length postings_with_amounts) 0)
      then
        let currency :=
          match postings_with_amounts with
          | p :: _ => ParsedPosting.currency p
          | [] => "INR"
          end in
        persist (set_missing (Decimal.neg total_amount) currency postings)
      else if Nat.ltb 1 (List.length postings_without_amounts)
      then (Ok None, db1)
      else persist postings
  end.

(** [(display_balance, currency)]. *)
Definition calculate_account_balance (db : Session.t) (account_id : nat)
  : Decimal.t * string :=
  match account_by_id db account_id with
  | None => (Decimal.zero_00, "INR")
  | Some account =>
      let postings :=
        List.filter (fun p => Nat.eqb (PostingModel.account_id p) account_id)
          (Session.postings db) in
      match postings with
      | [] => (Decimal.zero_00, "INR")
      | p0 :: _ =>
          let raw_balance := Decimal.sum (map PostingModel.amount postings) in
          let currency := PostingModel.currency p0 in
          let account_path := Account.full_path account in
          let display_balance :=
            if Py.startswith account_path "Assets" then raw_balance
            else if Py.startswith account_path "Income"
            then Decimal.neg raw_balance
            else if Py.startswith account_path "Expenses" then raw_balance
            else if Py.startswith account_path "Liabilities"
                    || Py.startswith account_path "Equity"
            then Decimal.neg raw_balance
            else raw_balance in
          (display_balance, currency)
      end
  end.

(** [account_balance.balance = balance; account_balance.currency = currency]
    on the first row of the account. *)
Fixpoint set_balance (account_id : nat) (balance : Decimal.t)
  (currency : string) (rows : list AccountBalance.t)
  : list AccountBalance.t :=
  match rows with
  | [] => []
  | r :: rows' =>
      if Nat.eqb (AccountBalance.account_id r) account_id
      then AccountBalance.mk (AccountBalance.id r) account_id balance currency
             :: rows'
      else r :: set_balance account_id balance currency rows'
  end.

(** One turn of the loop of [update_account_balances].  The session
    does not flush on its own ([autoflush=False]): the query sees the
    rows of the table, [rows], and not those added in earlier turns,
    [added]. *)
Definition update_account_balance (db : Session.t)
  (st : list AccountBalance.t * list AccountBalance.t) (account : Account.t)
  : list AccountBalance.t * list AccountBalance.t :=
  let '(rows, added) := st in
  let '(balance, currency) := calculate_account_balance db (Account.id account) in
  match find (fun r => Nat.eqb (AccountBalance.account_id r) (Account.id account))
          rows with
  | Some _ => (set_balance (Account.id account) balance currency rows, added)
  | None =>
      (rows,
       added ++ [AccountBalance.mk
                   (models.next_id (map AccountBalance.id (rows ++ added)))
                   (Account.id account) balance currency])
  end.

Definition update_account_balances (db : Session.t) : Session.t :=
  let '(rows, added) :=
    fold_left (update_account_balance db) (Session.accounts db)
      (Session.account_balances db, []) in
  Session.mk (Session.accounts db) (Session.transactions db)
    (Session.postings db) (rows ++ added).

(** The dictionary [import_ledger_file] returns. *)
Record counts : Type := mk_counts
  { imported : nat; skipped : nat; total_parsed : nat }.

(** The file system: what [readlines] returns for a path that exists. *)
Definition files : Type := string -> option (list string).

Section import_loop.

(** The method [self.get_or_create_transaction]. *)
Variable process :
  Session.t -> ParsedTransaction.t -> result (option Transaction.t) * Session.t.

(** One turn of the loop, with its [try] and [except Exception]. *)
Definition import_transaction (st : nat * nat * Session.t)
  (parsed_transaction : ParsedTransaction.t) : nat * nat * Session.t :=
  let '(imported_count, skipped_count, db) := st in
  match process db parsed_transaction with
  | (Ok (Some transaction), db') => (imported_count + 1, skipped_count, db')
  | (Ok None, db') => (imported_count, skipped_count + 1, db')
  | (Raise e, db') => (imported_count, skipped_count + 1, db')
  end.

Definition import_ledger_file_with (fs : files) (db : Session.t)
  (file_path : option string) (update_balances : bool)
  : result counts * Session.t :=
  let file_path := match file_path with
                   | Some p => p
                   | None => settings_ledger_file_path
                   end in
  match fs file_path with
  | None => (Raise FileNotFoundError, db)
  | Some lines =>
      match parser.parse_ledger_file lines with
      | Raise e => (Raise e, db)
      | Ok parsed_transactions =>
          let '(imported_count, skipped_count, db1) :=
            fold_left import_transaction parsed_transactions (0, 0, db) in
          let db2 := if update_balances then update_account_balances db1
                     else db1 in
          (Ok (mk_counts imported_count skipped_count
                 (List.length parsed_transactions)), db2)
      end
  end.

End import_loop.

Definition import_ledger_file : files -> Session.t -> option string -> bool
                                -> result counts * Session.t :=
  import_ledger_file_with get_or_create_transaction.

(** [import_ledger(db, file_path)]. *)
Definition import_ledger (fs : files) (db : Session.t)
  (file_path : option string) : result counts * Session.t :=
  import_ledger_file fs db file_path true.

End importer.

(** ** Notions used to state the properties *)

Module spec.

Import importer.
Local Open Scope list_scope.

(** The row of the prefix of [i + 1] segments in a store that held no
    account before: key [i + 1], and as parent the key of the row of
    the prefix one segment shorter. *)
Definition prefix_row (parts : list string) (i : nat) : Account.t :=
  Account.mk (i + 1) (nth i parts "") (Py.join ":" (firstn (i + 1) parts))
    (match i with O => None | S _ => Some i end).

(** The first segment of an account path. *)
Definition top_segment (account_path : string) : string :=
  hd "" (Py.split ":" account_path).

(** The paths whose balance is shown with the opposite sign. *)
Definition flips_sign (account_path : string) : bool :=
  Py.startswith account_path "Income"
  || Py.startswith account_path "Liabilities"
  || Py.startswith account_path "Equity".

(** The postings of an account and the sum of their amounts. *)
Definition postings_of (db : Session.t) (account_id : nat)
  : list PostingModel.t :=
  List.filter (fun p => Nat.eqb (PostingModel.account_id p) account_id)
    (Session.postings db).

Definition raw_balance (db : Session.t) (account_id : nat) : Decimal.t :=
  Decimal.sum (map PostingModel.amount (postings_of db account_id)).

(** An amount that [calculate_hash] renders as the empty string. *)
Definition zero_or_absent (a : option Decimal.t) : Prop :=
  match a with
  | None => True
  | Some d => Decimal.coef d = 0%Z
  end.

(** Two postings that differ at most in how a zero amount is written. *)
Definition same_up_to_zero (p q : ParsedPosting.t) : Prop :=
  ParsedPosting.account p = ParsedPosting.account q
  /\ ParsedPosting.currency p = ParsedPosting.currency q
  /\ (ParsedPosting.amount p = ParsedPosting.amount q
      \/ (zero_or_absent (ParsedPosting.amount p)
          /\ zero_or_absent (ParsedPosting.amount q))).

(** The postings of [l] on the account [a], in the order of [l]. *)
Definition on_account (a : string) (l : list ParsedPosting.t)
  : list ParsedPosting.t :=
  List.filter (fun p => String.eqb (ParsedPosting.account p) a) l.

(** The account paths of a list are in ascending order. *)
Definition ascending (l : list ParsedPosting.t) : Prop :=
  StronglySorted
    (fun p q =>
       String.leb (ParsedPosting.account p) (ParsedPosting.account q) = true)
    l.

(** How a posting row answers to the parsed posting it was made from. *)
Definition row_of (tx : Transaction.t) (p : ParsedPosting.t)
  (r : PostingModel.t) : Prop :=
  PostingModel.transaction_id r = Transaction.id tx
  /\ PostingModel.amount r
     = match ParsedPosting.amount p with
       | Some a => a
       | None => Decimal.zero_00
       end
  /\ PostingModel.currency r = ParsedPosting.currency p.




(** The first balance row of an account among [rows] holds what
    [calculate_account_balance] returns for the account. *)
Definition caches (db : Session.t) (rows : list AccountBalance.t)
  (account_id : nat) : Prop :=
  exists r,
    find (fun x => Nat.eqb (AccountBalance.account_id x) account_id) rows
    = Some r
    /\ AccountBalance.balance r = fst (calculate_account_balance db account_id)
    /\ AccountBalance.currency r = snd (calculate_account_balance db account_id).




(** The hash is the hash of a row of the table. *)
Definition known (db : Session.t) (h : string) : Prop :=
  transaction_by_hash db h <> None.

End spec.

(** ** Ledgers and stores used as concrete inputs *)

Module examples.

Import importer.
Local Open Scope list_scope.

(** The file system with one ledger, at the path [ledger.dat]. *)
Definition disk (lines : list string) : files :=
  fun path => if String.eqb path "ledger.dat" then Some lines else None.

Definition ledger : list string :=
  [ "alias A=Assets";
    "";
    "2024/01/05  Grocery store";
    "    Expenses:Food   1,250.00";
    "    A:Banking:Checking";
    "";
    "2024/03/01 Salary";
    "    A:Banking:Checking  40000.00";
    "    Income:Salary" ].

(** The two transactions of [ledger], as the parser builds them. *)
Definition grocery : ParsedTransaction.t :=
  ParsedTransaction.mk (datetime.mk 2024 1 5) "Grocery store"
    [ ParsedPosting.mk "Expenses:Food" (Some (Decimal.mk 125000 (-2))) "INR";
      ParsedPosting.mk "Assets:Banking:Checking" None "INR" ].

Definition salary : ParsedTransaction.t :=
  ParsedTransaction.mk (datetime.mk 2024 3 1) "Salary"
    [ ParsedPosting.mk "Assets:Banking:Checking"
        (Some (Decimal.mk 4000000 (-2))) "INR";
      ParsedPosting.mk "Income:Salary" None "INR" ].

(** A transaction with two postings without amount. *)
Definition ledger_two_missing : list string :=
  [ "2024/03/02 Cash withdrawal";
    "    Expenses:Food";
    "    Assets:Cash" ].

Definition two_missing : ParsedTransaction.t :=
  ParsedTransaction.mk (datetime.mk 2024 3 2) "Cash withdrawal"
    [ ParsedPosting.mk "Expenses:Food" None "INR";
      ParsedPosting.mk "Assets:Cash" None "INR" ].



(** An account whose first segment is [Incomes]. *)
Definition ledger_incomes : list string :=
  [ "2024/02/01 Refund";
    "    Incomes:Misc  500.00";
    "    Assets:Bank" ].





(** A posting with the amount 0.00 and the same posting without
    amount. *)
Definition adjustment_zero : ParsedTransaction.t :=
  ParsedTransaction.mk (datetime.mk 2024 1 5) "Adjustment"
    [ ParsedPosting.mk "Expenses:Food" (Some (Decimal.mk 0 (-2))) "INR";
      ParsedPosting.mk "Assets:Cash" (Some (Decimal.mk 1000 (-2))) "INR" ].

Definition adjustment_absent : ParsedTransaction.t :=
  ParsedTransaction.mk (datetime.mk 2024 1 5) "Adjustment"
    [ ParsedPosting.mk "Expenses:Food" None "INR";
      ParsedPosting.mk "Assets:Cash" (Some (Decimal.mk 1000 (-2))) "INR" ].

(** A store with one account and nothing else. *)
Definition one_account : Session.t :=
  Session.mk [Account.mk 1 "Assets" "Assets" None] [] [] [].

(** The store after [ledger] went into an empty one. *)
Definition imported_store : Session.t :=
  snd (import_ledger (disk ledger) Session.empty (Some "ledger.dat")).

Definition incomes_store : Session.t :=
  snd (import_ledger (disk ledger_incomes) Session.empty (Some "ledger.dat")).

End examples.

(** ** [app/api/import.py] and [app/api/accounts.py]

    The two endpoints that call the importer and read what it caches.
    A [pathlib.Path] is the text of the path, taken in normal form. *)

Module api.

Import importer.
Local Open Scope list_scope.

(** What an endpoint returns, or the [HTTPException] it raises. *)
Inductive response (A : Type) : Type :=
| Returned (a : A)
| HTTPException (status_code : nat) (detail : string).
Arguments Returned {A} a.
Arguments HTTPException {A} status_code detail.

Record ImportResponse : Type := mk_import_response
  { imported : nat; skipped : nat; total_parsed : nat; message : string }.


(** [str(e)] for an exception raised under [import_ledger] with the
    file at [file_path]. *)
Definition str_of_exn (file_path : string) (e : exn) : string :=
  match e with
  | FileNotFoundError => ("Ledger file not found: " ++ file_path)%string
  | InvalidOperation => "[<class 'decimal.ConversionSyntax'>]"
  | AttributeError => "'NoneType' object has no attribute 'id'"
  end.

(** [POST /import]. *)
Definition import_ledger_file (fs : files) (db : Session.t)
  (file_path : option string) : response ImportResponse * Session.t :=
  let ledger_path :=
    match file_path with
    | Some p => if Py.truthy p then Some p else None
    | None => None
    end in
  let resolved := match ledger_path with
                  | Some p => p
                  | None => settings_ledger_file_path
                  end in
  match import_ledger fs db ledger_path with
  | (Ok result, db') =>
      (Returned
         (mk_import_response (importer.imported result)
            (importer.skipped result) (importer.total_parsed result)
            ("Successfully imported "
               ++ Py.str_of_N (N.of_nat (importer.imported result))
               ++ " transactions")%string),
       db')
  | (Raise FileNotFoundError, db') =>
      (HTTPException 404 (str_of_exn resolved FileNotFoundError), db')
  | (Raise e, db') =>
      (HTTPException 500 ("Import failed: " ++ str_of_exn resolved e)%string,
       db')
  end.


End api.

(** ** The constraints of the schema, as invariants of the store *)

Module store.

Import importer.
Local Open Scope list_scope.

(** The hashes of the table of transactions; the column is nullable. *)
Definition hashes (db : Session.t) : list string :=
  flat_map (fun t => match Transaction.transaction_hash t with
                     | Some h => [h]
                     | None => []
                     end)
    (Session.transactions db).

(** The primary key and the unique [full_path] of [accounts]; and the
    tree: a row without parent is a root, whose path is its name, and
    the path of any other row is the path of its parent, a colon, and
    its name. *)
Definition accounts_ok (db : Session.t) : Prop :=
  NoDup (map Account.id (Session.accounts db))
  /\ NoDup (map Account.full_path (Session.accounts db))
  /\ forall a, In a (Session.accounts db) ->
       match Account.parent_id a with
       | None => Account.full_path a = Account.name a
       | Some p =>
           exists b, In b (Session.accounts db)
                     /\ Account.id b = p
                     /\ Account.full_path a
                        = (Account.full_path b ++ ":" ++ Account.name a)%string
       end.

(** The primary key and the unique [transaction_hash] of
    [transactions]. *)
Definition transactions_ok (db : Session.t) : Prop :=
  NoDup (map Transaction.id (Session.transactions db))
  /\ NoDup (hashes db).

(** The primary key and the two foreign keys of [postings]. *)
Definition postings_ok (db : Session.t) : Prop :=
  NoDup (map PostingModel.id (Session.postings db))
  /\ forall p, In p (Session.postings db) ->
       (exists a, In a (Session.accounts db)
                  /\ Account.id a = PostingModel.account_id p)
       /\ (exists t, In t (Session.transactions db)
                     /\ Transaction.id t = PostingModel.transaction_id p).

(** The primary key, the unique [account_id] and the foreign key of
    [account_balances]. *)
Definition balances_ok (db : Session.t) : Prop :=
  NoDup (map AccountBalance.id (Session.account_balances db))
  /\ NoDup (map AccountBalance.account_id (Session.account_balances db))
  /\ forall b, In b (Session.account_balances db) ->
       exists a, In a (Session.accounts db)
                 /\ Account.id a = AccountBalance.account_id b.

Definition well_formed (db : Session.t) : Prop :=
  accounts_ok db /\ transactions_ok db /\ postings_ok db /\ balances_ok db.

(** The store [db'] holds the rows of [db], in place, and maybe more
    accounts, transactions and postings after them. *)
Definition extends (db db' : Session.t) : Prop :=
  (exists l, Session.accounts db' = Session.accounts db ++ l)
  /\ (exists l, Session.transactions db' = Session.transactions db ++ l)
  /\ (exists l, Session.postings db' = Session.postings db ++ l).

(** The row [r] is a posting of the transaction [tx] on the account of
    [db] whose path is the account of the parsed posting [p]. *)
Definition links (db : Session.t) (tx : Transaction.t)
  (p : ParsedPosting.t) (r : PostingModel.t) : Prop :=
  PostingModel.transaction_id r = Transaction.id tx
  /\ exists a, In a (Session.accounts db)
               /\ Account.full_path a = ParsedPosting.account p
               /\ PostingModel.account_id r = Account.id a.

(** The number of postings of [t] that have no amount. *)
Definition without_amount (t : ParsedTransaction.t) : nat :=
  List.length (List.filter (fun p => negb (has_amount p))
                 (ParsedTransaction.postings t)).

(** What the loop of [get_or_create_account] holds before the prefix
    of [i + 1] segments: a store that meets the constraints of the
    accounts, and as parent the row of the prefix of [i] segments,
    none for [i = 0]. *)
Definition at_prefix (parts : list string) (i : nat)
  (st : option Account.t * Session.t) : Prop :=
  accounts_ok (snd st)
  /\ match i with
     | O => fst st = None
     | S _ => exists b, fst st = Some b /\ In b (Session.accounts (snd st))
                        /\ Account.full_path b = Py.join ":" (firstn i parts)
     end.

(** What the loop of [update_account_balances] holds once the accounts
    [done] are through: the rows of the table and the rows added have
    distinct keys and distinct accounts, every row added belongs to an
    account of [done], and every row to an account of [accounts]. *)
Definition balances_loop (accounts done : list Account.t)
  (st : list AccountBalance.t * list AccountBalance.t) : Prop :=
  NoDup (map AccountBalance.id (fst st ++ snd st))
  /\ NoDup (map AccountBalance.account_id (fst st ++ snd st))
  /\ Forall (fun b => In (AccountBalance.account_id b) (map Account.id done))
       (snd st)
  /\ Forall (fun b => In (AccountBalance.account_id b) (map Account.id accounts))
       (fst st ++ snd st).



(** A text without digit and without comma. *)
Definition no_digit_no_comma (s : string) : Prop :=
  Forall (fun c => Py.isdigit c = false /\ c <> ","%char)
    (list_ascii_of_string s).

(** A continuation of the matcher that fails on every text without
    digit and comma; a pattern that fails before such a continuation;
    a pattern that fails on such a text whatever comes after it. *)
Definition dead (k : re.cont) : Prop :=
  forall pos s g, no_digit_no_comma s -> k pos s g = None.

Definition passes (r : re.regex) : Prop :=
  forall k, dead k -> dead (fun pos s g => re.run r pos s g k).


(** A digit of lower-case hexadecimal notation. *)
Definition is_hex_digit (c : ascii) : bool :=
  let n := Py.code c in
  ((48 <=? n) && (n <=? 57) || (97 <=? n) && (n <=? 102))%N.




End store.

(** * Properties *)

(** ** The embedding on known values *)

Section known_values.

Example sha256_of_abc :
  hashlib.sha256_hexdigest "abc"
  = "ba7816bf8f01cfea414140de5dae2223b00361a396177a9cb410ff61f20015ad".
Proof. vm_compute. reflexivity. Qed.

Example sha256_of_the_empty_string :
  hashlib.sha256_hexdigest ""
  = "e3b0c44298fc1c149afbf4c8996fb92427ae41e4649b934ca495991b7852b855".
Proof. vm_compute. reflexivity. Qed.

Example str_of_decimals :
  map Decimal.str
    [Decimal.mk 125000 (-2); Decimal.mk (-125000) (-2); Decimal.mk 0 (-2);
     Decimal.mk 5 (-7); Decimal.mk 123 3]
  = ["1250.00"; "-1250.00"; "0.00"; "5E-7"; "1.23E+5"].
Proof. vm_compute. reflexivity. Qed.

(** 29 digits do not fit the context: the sum is rounded half even. *)
Example decimal_sum_rounds :
  Decimal.sum [Decimal.mk 12345678901234567890123456789 0]
  = Decimal.mk 1234567890123456789012345679 1.
Proof. vm_compute. reflexivity. Qed.

Example parse_amount_examples :
  map parser.parse_amount
    [(parser.rupee ++ "27,000.00")%string; "40000.00"; "-500.00"; "no amount"; ","]
  = [Ok (Some (Decimal.mk 2700000 (-2)), "INR");
     Ok (Some (Decimal.mk 4000000 (-2)), "INR");
     Ok (Some (Decimal.mk 50000 (-2)), "INR");
     Ok (None, "INR");
     Raise InvalidOperation].
Proof. vm_compute. reflexivity. Qed.

Example expand_aliases_examples :
  let aliases : gmap string string :=
    <["C" := "Assets:Investment"]> (<["A" := "Assets"]> ∅) in
  parser.expand_aliases aliases "A:Bank" = "Assets:Bank"
  /\ parser.expand_aliases aliases "C:PPF" = "Assets:Investment:PPF".
Proof. split; vm_compute; reflexivity. Qed.

Example strptime_examples :
  map datetime.strptime ["2024/02/29"; "2023/02/29"; "2024/13/01"; "0000/01/01"]
  = [Some (datetime.mk 2024 2 29); None; None; None].
Proof. vm_compute. reflexivity. Qed.

Example parse_ledger_file_example :
  parser.parse_ledger_file examples.ledger
  = Ok [examples.grocery; examples.salary].
Proof. vm_compute. reflexivity. Qed.

Example hash_content_example :
  parser.hash_content examples.grocery
  = "2024-01-05T00:00:00|Grocery store|Assets:Banking:Checking::INR|Expenses:Food:1250.00:INR|".
Proof. vm_compute. reflexivity. Qed.

(** The missing amount of the grocery transaction is -1250.00. *)
Example single_missing_example :
  map (fun r => (models.Posting.account_id r, models.Posting.amount r,
                 models.Posting.currency r))
    (models.Session.postings
       (snd (importer.get_or_create_transaction models.Session.empty
               examples.grocery)))
  = [(2, Decimal.mk 125000 (-2), "INR"); (5, Decimal.mk (-125000) (-2), "INR")].
Proof. vm_compute. reflexivity. Qed.

(** Three rows for [Assets:Banking:Checking], and the same row twice. *)
Example get_or_create_account_example :
  let '(first, db1) :=
    importer.get_or_create_account models.Session.empty
      "Assets:Banking:Checking" in
  models.Session.accounts db1
  = [models.Account.mk 1 "Assets" "Assets" None;
     models.Account.mk 2 "Banking" "Assets:Banking" (Some 1);
     models.Account.mk 3 "Checking" "Assets:Banking:Checking" (Some 2)]
  /\ importer.get_or_create_account db1 "Assets:Banking:Checking"
     = (first, db1).
Proof. vm_compute. split; reflexivity. Qed.

End known_values.
(** ** Strings *)

Section strings.

Local Open Scope list_scope.

Lemma split_not_nil sep s : Py.split sep s <> [].
Proof.
  destruct s as [|c s]; simpl; [discriminate|].
  destruct (Ascii.eqb c sep); [discriminate|].
  destruct (Py.split sep s); discriminate.
Qed.

Lemma concat_cons_char sep c h t :
  String.concat sep (String c h :: t) = String c (String.concat sep (h :: t)).
Proof. destruct t; reflexivity. Qed.

(** [sep.join(s.split(sep)) == s]. *)
Lemma join_split sep s :
  Py.join (String sep "") (Py.split sep s) = s.
Proof.
  unfold Py.join. induction s as [|c s IH]; simpl; [reflexivity|].
  destruct (Ascii.eqb_spec c sep) as [->|Hne].
  - pose proof (split_not_nil sep s) as Hnil.
    destruct (Py.split sep s) as [|h t] eqn:E; [contradiction|].
    simpl. simpl in IH. now rewrite IH.
  - pose proof (split_not_nil sep s) as Hnil.
    destruct (Py.split sep s) as [|h t] eqn:E; [contradiction|].
    rewrite concat_cons_char. now rewrite IH.
Qed.

Lemma length_append (a b : string) :
  String.length (a ++ b)%string = String.length a + String.length b.
Proof. induction a; simpl; auto. Qed.

(** Joining one more part makes the text longer. *)
Lemma length_join_snoc sep l x :
  l <> [] ->
  String.length (Py.join sep (l ++ [x]))
  = String.length (Py.join sep l) + String.length sep + String.length x.
Proof.
  unfold Py.join. induction l as [|a l IH]; [contradiction|]. intros _.
  destruct l as [|b l].
  - simpl. rewrite !length_append. lia.
  - change (String.concat sep ((a :: b :: l) ++ [x]))
      with (a ++ sep ++ String.concat sep ((b :: l) ++ [x]))%string.
    change (String.concat sep (a :: b :: l))
      with (a ++ sep ++ String.concat sep (b :: l))%string.
    rewrite !length_append. rewrite IH by discriminate. lia.
Qed.

Lemma firstn_snoc {A} (l : list A) n d :
  n < List.length l -> firstn (S n) l = firstn n l ++ [nth n l d].
Proof.
  revert n. induction l as [|a l IH]; intros n Hn; simpl in Hn; [lia|].
  destruct n; simpl; [reflexivity|]. f_equal. apply IH. lia.
Qed.

(** The joined prefixes of a list of parts grow strictly. *)
Lemma length_join_firstn_lt sep parts i j :
  sep <> "" -> i < j -> j < List.length parts ->
  String.length (Py.join sep (firstn (i + 1) parts))
  < String.length (Py.join sep (firstn (j + 1) parts)).
Proof.
  intros Hsep Hij Hj. induction j as [|j IH]; [lia|].
  assert (Hstep : String.length (Py.join sep (firstn (j + 1) parts))
                  < String.length (Py.join sep (firstn (S j + 1) parts))).
  { replace (S j + 1) with (S (j + 1)) by lia.
    rewrite (firstn_snoc parts (j + 1) "") by lia.
    rewrite length_join_snoc.
    - destruct sep; [contradiction|]. simpl. lia.
    - destruct parts; simpl in *; [lia|].
      replace (j + 1) with (S j) by lia. discriminate. }
  destruct (Nat.eq_dec i j) as [->|Hne]; [exact Hstep|].
  etransitivity; [apply IH; lia|exact Hstep].
Qed.

End strings.

(** ** Accounts *)

Section accounts.

Import importer.
Local Open Scope list_scope.

Lemma find_app {A} (f : A -> bool) l1 l2 :
  find f (l1 ++ l2)
  = match find f l1 with Some x => Some x | None => find f l2 end.
Proof.
  induction l1 as [|a l1 IH]; simpl; [reflexivity|].
  destruct (f a); [reflexivity|exact IH].
Qed.

Lemma find_none_all {A} (f : A -> bool) l :
  (forall x, In x l -> f x = false) -> find f l = None.
Proof.
  induction l as [|a l IH]; intros H; simpl; [reflexivity|].
  rewrite (H a) by (left; reflexivity). apply IH.
  intros x Hx. apply H. now right.
Qed.

Lemma enumerate_snoc {A} (l : list A) x :
  Py.enumerate (l ++ [x]) = Py.enumerate l ++ [(List.length l, x)].
Proof.
  unfold Py.enumerate.
  assert (H : forall a, combine (seq a (List.length (l ++ [x]))) (l ++ [x])
                        = combine (seq a (List.length l)) l
                            ++ [(a + List.length l, x)]).
  { induction l as [|b l IH]; intros a; simpl.
    - now rewrite Nat.add_0_r.
    - rewrite IH. simpl. repeat f_equal. lia. }
  apply (H 0).
Qed.

(** A turn of the loop ends on the row of its prefix, whatever came
    before, and touches the table of accounts only. *)
Lemma create_prefix_found parts st i part :
  exists a,
    fst (create_prefix parts st (i, part)) = Some a
    /\ account_by_path (snd (create_prefix parts st (i, part)))
         (Py.join ":" (firstn (i + 1) parts)) = Some a.
Proof.
  destruct st as [parent db]. unfold create_prefix.
  destruct (account_by_path db (Py.join ":" (firstn (i + 1) parts)))
    as [a|] eqn:E.
  - exists a. simpl. auto.
  - eexists. simpl. split; [reflexivity|].
    unfold account_by_path in *. simpl. rewrite find_app, E. simpl.
    now rewrite String.eqb_refl.
Qed.

Lemma create_prefix_tables parts st ip :
  Session.transactions (snd (create_prefix parts st ip))
  = Session.transactions (snd st)
  /\ Session.postings (snd (create_prefix parts st ip))
     = Session.postings (snd st)
  /\ Session.account_balances (snd (create_prefix parts st ip))
     = Session.account_balances (snd st).
Proof.
  destruct st as [parent db], ip as [i part]. unfold create_prefix.
  destruct (account_by_path db _); simpl; auto.
Qed.

Lemma create_prefixes_tables parts ips : forall st,
  Session.transactions (snd (fold_left (create_prefix parts) ips st))
  = Session.transactions (snd st)
  /\ Session.postings (snd (fold_left (create_prefix parts) ips st))
     = Session.postings (snd st)
  /\ Session.account_balances (snd (fold_left (create_prefix parts) ips st))
     = Session.account_balances (snd st).
Proof.
  induction ips as [|ip ips IH]; intros st; simpl; [auto|].
  destruct (IH (create_prefix parts st ip)) as (H1 & H2 & H3).
  destruct (create_prefix_tables parts st ip) as (G1 & G2 & G3).
  rewrite H1, H2, H3. auto.
Qed.

(** [get_or_create_account] returns a row, the first one of the path
    in the store it leaves. *)
Lemma get_or_create_account_found db path :
  exists a,
    fst (get_or_create_account db path) = Some a
    /\ account_by_path (snd (get_or_create_account db path)) path = Some a.
Proof.
  unfold get_or_create_account.
  destruct (account_by_path db path) as [a|] eqn:E.
  - exists a. simpl. auto.
  - pose proof (split_not_nil ":" path) as Hnil.
    pose proof (join_split ":" path) as Hjoin.
    destruct (exists_last Hnil) as (init & x & Hparts).
    set (parts := Py.split ":" path) in *.
    assert (Hfold :
      fold_left (create_prefix parts) (Py.enumerate parts) (None, db)
      = create_prefix parts
          (fold_left (create_prefix parts) (Py.enumerate init) (None, db))
          (List.length init, x)).
    { rewrite Hparts at 2. now rewrite enumerate_snoc, fold_left_app. }
    rewrite Hfold.
    destruct (create_prefix_found parts
                (fold_left (create_prefix parts) (Py.enumerate init) (None, db))
                (List.length init) x) as (a & Ha & Hfind).
    exists a. split; [exact Ha|].
    assert (Hall : firstn (List.length init + 1) parts = parts).
    { rewrite Hparts.
      replace (List.length init + 1) with (List.length (init ++ [x]))
        by (rewrite length_app; simpl; lia).
      apply firstn_all. }
    now rewrite Hall, Hjoin in Hfind.
Qed.

Lemma get_or_create_account_tables db path :
  Session.transactions (snd (get_or_create_account db path))
  = Session.transactions db
  /\ Session.postings (snd (get_or_create_account db path))
     = Session.postings db
  /\ Session.account_balances (snd (get_or_create_account db path))
     = Session.account_balances db.
Proof.
  unfold get_or_create_account.
  destruct (account_by_path db path); simpl; [auto|].
  apply (create_prefixes_tables _ _ (None, db)).
Qed.

Lemma get_or_create_account_again db path a :
  account_by_path db path = Some a ->
  get_or_create_account db path = (Some a, db).
Proof. intros H. unfold get_or_create_account. now rewrite H. Qed.

(** The store after the first [k] prefixes of [parts] went into an
    empty store, and the row the loop holds then. *)
Lemma list_max_prefix_ids parts k :
  list_max (map Account.id (map (spec.prefix_row parts) (seq 0 k))) = k.
Proof.
  induction k as [|k IH]; [reflexivity|].
  rewrite seq_S, !map_app, list_max_app, IH. simpl. lia.
Qed.

Lemma find_prefix_rows_none parts k :
  k < List.length parts ->
  find (fun a => String.eqb (Account.full_path a)
                   (Py.join ":" (firstn (k + 1) parts)))
    (map (spec.prefix_row parts) (seq 0 k)) = None.
Proof.
  intros Hk. apply find_none_all. intros a Ha.
  apply in_map_iff in Ha as (i & <- & Hi). apply in_seq in Hi. simpl.
  apply String.eqb_neq. intros Heq.
  pose proof (length_join_firstn_lt ":" parts i k) as Hlt.
  rewrite Heq in Hlt. assert (Hne : ":" <> "") by discriminate.
  specialize (Hlt Hne). lia.
Qed.

Lemma create_prefixes_fresh parts ts rs bs : forall ps pre,
  parts = pre ++ ps ->
  fold_left (create_prefix parts)
    (combine (seq (List.length pre) (List.length ps)) ps)
    (match List.length pre with
     | O => None
     | S k => Some (spec.prefix_row parts k)
     end,
     Session.mk (map (spec.prefix_row parts) (seq 0 (List.length pre))) ts rs bs)
  = (match List.length parts with
     | O => None
     | S k => Some (spec.prefix_row parts k)
     end,
     Session.mk (map (spec.prefix_row parts) (seq 0 (List.length parts))) ts rs bs).
Proof.
  induction ps as [|p ps IH]; intros pre Hparts.
  - rewrite app_nil_r in Hparts. subst. reflexivity.
  - change (combine (seq (List.length pre) (List.length (p :: ps))) (p :: ps))
      with ((List.length pre, p)
              :: combine (seq (S (List.length pre)) (List.length ps)) ps).
    cbn [fold_left].
    assert (Hlen : List.length pre < List.length parts)
      by (subst; rewrite length_app; simpl; lia).
    assert (Hstep :
      create_prefix parts
        (match List.length pre with
         | O => None
         | S k => Some (spec.prefix_row parts k)
         end,
         Session.mk (map (spec.prefix_row parts) (seq 0 (List.length pre)))
           ts rs bs)
        (List.length pre, p)
      = (Some (spec.prefix_row parts (List.length pre)),
         Session.mk
           (map (spec.prefix_row parts) (seq 0 (S (List.length pre))))
           ts rs bs)).
    { unfold create_prefix, account_by_path. simpl Session.accounts.
      rewrite find_prefix_rows_none by exact Hlen.
      unfold add_account, models.next_id. simpl Session.accounts.
      rewrite list_max_prefix_ids.
      assert (Hrow :
        Account.mk (S (List.length pre)) p
          (Py.join ":" (firstn (List.length pre + 1) parts))
          (option_map Account.id
             match List.length pre with
             | O => None
             | S k => Some (spec.prefix_row parts k)
             end)
        = spec.prefix_row parts (List.length pre)).
      { unfold spec.prefix_row. f_equal.
        - lia.
        - subst parts. rewrite app_nth2, Nat.sub_diag by lia. reflexivity.
        - destruct (List.length pre); simpl; [reflexivity|]. f_equal. lia. }
      rewrite Hrow. rewrite seq_S, map_app. reflexivity. }
    rewrite Hstep.
    specialize (IH (pre ++ [p])).
    rewrite length_app in IH. simpl in IH.
    replace (List.length pre + 1) with (S (List.length pre)) in IH by lia.
    apply IH. subst. now rewrite <- app_assoc.
Qed.

End accounts.

(** C9.  [get_or_create_account] is idempotent: in any store a second
    call with the same path returns the row of the first call and leaves
    the store as the first call left it.  In a store without accounts a
    path of [n] segments creates exactly the [n] rows [prefix_row], one
    per prefix, keyed 1 to [n], each with the key of the row of the next
    shorter prefix as parent (none for the first), and returns the last;
    the other tables are left as they are. *)
Theorem get_or_create_account_idempotent :
  (forall db path,
     exists a db1,
       importer.get_or_create_account db path = (Some a, db1)
       /\ importer.get_or_create_account db1 path = (Some a, db1))
  /\ (forall ts rs bs path,
        let parts := Py.split ":" path in
        let n := List.length parts in
        importer.get_or_create_account (models.Session.mk [] ts rs bs) path
        = (Some (spec.prefix_row parts (n - 1)),
           models.Session.mk (map (spec.prefix_row parts) (seq 0 n)) ts rs bs)
        /\ List.length (map (spec.prefix_row parts) (seq 0 n)) = n).
Proof.
  split.
  - intros db path.
    destruct (get_or_create_account_found db path) as (a & Ha & Hfind).
    exists a, (snd (importer.get_or_create_account db path)). split.
    + rewrite <- Ha. now destruct (importer.get_or_create_account db path).
    + now apply get_or_create_account_again.
  - intros ts rs bs path parts n.
    split; [|now rewrite length_map, length_seq].
    unfold importer.get_or_create_account.
    change (importer.account_by_path (models.Session.mk [] ts rs bs) path)
      with (@None models.Account.t).
    cbv beta iota. fold parts.
    pose proof (create_prefixes_fresh parts ts rs bs parts [] eq_refl) as H.
    unfold Py.enumerate. simpl in H. rewrite H. fold n.
    pose proof (split_not_nil ":" path) as Hnil. fold parts in Hnil.
    destruct parts as [|p ps] eqn:E; [contradiction|].
    subst n. cbn [List.length].
    replace (S (List.length ps) - 1) with (List.length ps) by lia. reflexivity.
Qed.

(** ** The order of strings and the stable sort *)

Section sorting.

Import parser.
Local Open Scope list_scope.

Lemma string_compare_refl s : String.compare s s = Eq.
Proof.
  pose proof (String.compare_antisym s s) as H.
  destruct (String.compare s s); simpl in H; congruence.
Qed.

Lemma string_leb_refl s : String.leb s s = true.
Proof. unfold String.leb. now rewrite string_compare_refl. Qed.

Lemma ascii_compare_lt_trans a b c :
  Ascii.compare a b = Lt -> Ascii.compare b c = Lt -> Ascii.compare a c = Lt.
Proof.
  unfold Ascii.compare. rewrite !N.compare_lt_iff. apply N.lt_trans.
Qed.

Lemma string_leb_trans a : forall b c,
  String.leb a b = true -> String.leb b c = true -> String.leb a c = true.
Proof.
  unfold String.leb.
  induction a as [|x a IH]; intros [|y b] [|z c]; simpl; try easy.
  destruct (Ascii.compare x y) eqn:Exy; try easy;
    destruct (Ascii.compare y z) eqn:Eyz; try easy.
  - apply Ascii.compare_eq_iff in Exy, Eyz. subst.
    pose proof (Ascii.compare_antisym z z) as H.
    destruct (Ascii.compare z z); simpl in H; try congruence. apply IH.
  - apply Ascii.compare_eq_iff in Exy. subst. now rewrite Eyz.
  - apply Ascii.compare_eq_iff in Eyz. subst. now rewrite Exy.
  - now rewrite (ascii_compare_lt_trans x y z).
Qed.

Lemma string_leb_false a b :
  String.leb a b = false -> String.leb b a = true /\ a <> b.
Proof.
  intros H. split.
  - destruct (String.leb_total a b); congruence.
  - intros ->. rewrite string_leb_refl in H. discriminate.
Qed.

Lemma insert_by_account_In p l x :
  In x (insert_by_account p l) <-> x = p \/ In x l.
Proof.
  induction l as [|q l IH]; simpl.
  - intuition.
  - destruct (String.leb _ _); simpl; rewrite ?IH; intuition.
Qed.

Lemma insert_by_account_ascending p l :
  spec.ascending l -> spec.ascending (insert_by_account p l).
Proof.
  unfold spec.ascending. induction l as [|q l IH]; intros Hs; simpl.
  - constructor; constructor.
  - destruct (String.leb (Posting.account p) (Posting.account q)) eqn:E.
    + constructor; [exact Hs|]. constructor; [exact E|].
      inversion Hs as [|? ? _ Hall]; subst.
      eapply List.Forall_impl; [|exact Hall]. intros r Hr. simpl in Hr.
      eapply string_leb_trans; eauto.
    + inversion Hs as [|? ? Hs' Hall]; subst.
      constructor; [now apply IH|].
      apply List.Forall_forall. intros x Hx.
      apply insert_by_account_In in Hx as [->|Hx].
      * now apply string_leb_false in E.
      * rewrite List.Forall_forall in Hall. now apply Hall.
Qed.

Lemma sorted_by_account_ascending l : spec.ascending (sorted_by_account l).
Proof.
  induction l as [|p l IH]; simpl.
  - constructor.
  - now apply insert_by_account_ascending.
Qed.

(** The sort is stable: it keeps the order of the postings of one
    account. *)
Lemma on_account_insert a p l :
  spec.on_account a (insert_by_account p l)
  = if String.eqb (Posting.account p) a
    then p :: spec.on_account a l else spec.on_account a l.
Proof.
  unfold spec.on_account. induction l as [|q l IH]; simpl; [reflexivity|].
  destruct (String.leb (Posting.account p) (Posting.account q)) eqn:E; simpl.
  - reflexivity.
  - rewrite IH. apply string_leb_false in E as [_ Hne].
    destruct (String.eqb_spec (Posting.account p) a) as [Hp|Hp];
      destruct (String.eqb_spec (Posting.account q) a) as [Hq|Hq];
      try reflexivity. congruence.
Qed.

Lemma on_account_sorted a l :
  spec.on_account a (sorted_by_account l) = spec.on_account a l.
Proof.
  induction l as [|p l IH]; simpl; [reflexivity|].
  rewrite on_account_insert, IH. unfold spec.on_account. simpl.
  reflexivity.
Qed.



End sorting.

(** ** The hash of a transaction *)

Section hashing.

Import parser.
Local Open Scope list_scope.

Lemma amount_str_zero_or_absent p :
  spec.zero_or_absent (Posting.amount p) -> amount_str p = "".
Proof.
  unfold amount_str, spec.zero_or_absent, Decimal.truthy.
  destruct (Posting.amount p) as [d|]; [|reflexivity].
  intros ->. reflexivity.
Qed.

Lemma amount_str_same p q :
  spec.same_up_to_zero p q -> amount_str p = amount_str q.
Proof.
  intros (_ & _ & [H|[Hp Hq]]).
  - unfold amount_str. now rewrite H.
  - now rewrite !amount_str_zero_or_absent.
Qed.

Lemma insert_same_up_to_zero p q l1 l2 :
  spec.same_up_to_zero p q -> Forall2 spec.same_up_to_zero l1 l2 ->
  Forall2 spec.same_up_to_zero (insert_by_account p l1) (insert_by_account q l2).
Proof.
  intros Hpq H. induction H as [|x y l1 l2 Hxy H IH]; simpl.
  - constructor; [exact Hpq|constructor].
  - assert (Ha : Posting.account p = Posting.account q) by apply Hpq.
    assert (Hb : Posting.account x = Posting.account y) by apply Hxy.
    rewrite <- Ha, <- Hb.
    destruct (String.leb (Posting.account p) (Posting.account x)).
    + constructor; [exact Hpq|]. constructor; [exact Hxy|exact H].
    + constructor; [exact Hxy|exact IH].
Qed.

Lemma sorted_same_up_to_zero l1 l2 :
  Forall2 spec.same_up_to_zero l1 l2 ->
  Forall2 spec.same_up_to_zero (sorted_by_account l1) (sorted_by_account l2).
Proof.
  induction 1; simpl; [constructor|].
  now apply insert_same_up_to_zero.
Qed.

Lemma hash_content_same t1 t2 :
  Transaction.date t1 = Transaction.date t2 ->
  Transaction.payee t1 = Transaction.payee t2 ->
  Forall2 spec.same_up_to_zero
    (sorted_by_account (Transaction.postings t1))
    (sorted_by_account (Transaction.postings t2)) ->
  hash_content t1 = hash_content t2.
Proof.
  intros Hd Hp H. unfold hash_content. rewrite Hd, Hp.
  generalize (datetime.isoformat (Transaction.date t2) ++ "|"
                ++ Transaction.payee t2 ++ "|")%string.
  induction H as [|x y l1 l2 Hxy H IH]; intros c; simpl; [reflexivity|].
  rewrite (amount_str_same x y Hxy).
  destruct Hxy as (-> & -> & _). apply IH.
Qed.


End hashing.


(** ** Creating a transaction *)

Section transactions.

Import importer.
Local Open Scope list_scope.

(** The row [create_posting] adds for a parsed posting. *)
Lemma create_posting_row tx db p :
  exists db' r,
    create_posting tx db p = (Ok tt, db')
    /\ Session.postings db' = Session.postings db ++ [r]
    /\ Session.transactions db' = Session.transactions db
    /\ Session.account_balances db' = Session.account_balances db
    /\ PostingModel.transaction_id r = Transaction.id tx
    /\ PostingModel.amount r
       = match ParsedPosting.amount p with
         | Some a => a
         | None => Decimal.zero_00
         end
    /\ PostingModel.currency r = ParsedPosting.currency p.
Proof.
  unfold create_posting.
  destruct (get_or_create_account_found db (ParsedPosting.account p))
    as (a & Ha & _).
  destruct (get_or_create_account_tables db (ParsedPosting.account p))
    as (Ht & Hp & Hb).
  destruct (get_or_create_account db (ParsedPosting.account p)) as [o db1].
  simpl in *. subst o.
  eexists _, _. split; [reflexivity|]. simpl.
  rewrite Ht, Hp, Hb. repeat split; reflexivity.
Qed.

Lemma create_postings_rows tx ps : forall db,
  exists db' rows,
    create_postings tx db ps = (Ok tt, db')
    /\ Session.postings db' = Session.postings db ++ rows
    /\ Session.transactions db' = Session.transactions db
    /\ Session.account_balances db' = Session.account_balances db
    /\ Forall2 (spec.row_of tx) ps rows.
Proof.
  induction ps as [|p ps IH]; intros db; simpl.
  - exists db, []. rewrite app_nil_r. repeat split; constructor.
  - destruct (create_posting_row tx db p)
      as (db1 & r & -> & Hp & Ht & Hb & Hrow).
    destruct (IH db1) as (db2 & rows & -> & Hp2 & Ht2 & Hb2 & Hrows).
    exists db2, (r :: rows). split; [reflexivity|].
    rewrite Hp2, Hp, Ht2, Ht, Hb2, Hb, <- app_assoc.
    repeat split. constructor; assumption.
Qed.

Lemma transaction_by_hash_known db h :
  transaction_by_hash db h <> None ->
  exists t, transaction_by_hash db h = Some t.
Proof. destruct (transaction_by_hash db h); [eauto|congruence]. Qed.

(** A transaction whose hash is in the table is left alone. *)
Lemma get_or_create_transaction_duplicate db t :
  spec.known db (parser.calculate_hash t) ->
  get_or_create_transaction db t = (Ok None, db).
Proof.
  intros H. apply transaction_by_hash_known in H as (x & Hx).
  unfold get_or_create_transaction. now rewrite Hx.
Qed.

(** [get_or_create_transaction] never raises; it adds at most the row
    of the transaction, with its hash, to the table of transactions. *)
Lemma get_or_create_transaction_table db t :
  exists r db',
    get_or_create_transaction db t = (Ok r, db')
    /\ (Session.transactions db' = Session.transactions db
        \/ Session.transactions db'
           = Session.transactions db
               ++ [Transaction.mk
                     (models.next_id (map Transaction.id (Session.transactions db)))
                     (ParsedTransaction.date t) (ParsedTransaction.payee t)
                     (Some (parser.calculate_hash t))])
    /\ spec.known db' (parser.calculate_hash t).
Proof.
  unfold get_or_create_transaction, spec.known.
  destruct (transaction_by_hash db (parser.calculate_hash t)) as [x|] eqn:E.
  - exists None, db. rewrite E. repeat split; auto; discriminate.
  - cbv zeta. unfold add_transaction.
    set (tx := Transaction.mk _ _ _ _).
    set (db1 := Session.mk _ _ _ _).
    assert (Hk : forall db',
               Session.transactions db' = Session.transactions db1 ->
               transaction_by_hash db' (parser.calculate_hash t) <> None).
    { intros db' Hdb'. unfold transaction_by_hash in *. rewrite Hdb'.
      subst db1. simpl. rewrite find_app, E. simpl.
      rewrite String.eqb_refl. discriminate. }
    assert (Hpersist : forall ps,
               exists db',
                 match create_postings tx db1 ps with
                 | (Ok _, db2) => (Ok (Some tx), db2)
                 | (Raise e, db2) => (Raise e, db2)
                 end = (Ok (Some tx), db')
                 /\ Session.transactions db' = Session.transactions db1).
    { intros ps.
      destruct (create_postings_rows tx ps db1) as (db2 & rows & -> & _ & Ht & _).
      exists db2. auto. }
    destruct (_ && _).
    + destruct (Hpersist (set_missing
                  (Decimal.neg
                     match List.filter has_amount (ParsedTransaction.postings t) with
                     | [] => Decimal.zero_00
                     | _ :: _ => Decimal.sum (amounts (List.filter has_amount (ParsedTransaction.postings t)))
                     end)
                  match List.filter has_amount (ParsedTransaction.postings t) with
                  | [] => "INR"
                  | p :: _ => ParsedPosting.currency p
                  end (ParsedTransaction.postings t))) as (db' & -> & Ht).
      exists (Some tx), db'. split; [reflexivity|]. split; [|now apply Hk].
      right. rewrite Ht. reflexivity.
    + destruct (Nat.ltb _ _).
      * exists None, db1. split; [reflexivity|]. split; [|now apply Hk].
        right. reflexivity.
      * destruct (Hpersist (ParsedTransaction.postings t)) as (db' & -> & Ht).
        exists (Some tx), db'. split; [reflexivity|]. split; [|now apply Hk].
        right. rewrite Ht. reflexivity.
Qed.

Lemma known_app db db' h rows :
  Session.transactions db' = Session.transactions db ++ rows ->
  spec.known db h -> spec.known db' h.
Proof.
  unfold spec.known, transaction_by_hash. intros -> H.
  rewrite find_app. destruct (find _ (Session.transactions db)); congruence.
Qed.

Lemma get_or_create_transaction_keeps db t h :
  spec.known db h -> spec.known (snd (get_or_create_transaction db t)) h.
Proof.
  intros H.
  destruct (get_or_create_transaction_table db t) as (r & db' & -> & [Ht|Ht] & _);
    simpl.
  - eapply (known_app db db' h []); [now rewrite app_nil_r|exact H].
  - eapply known_app; eauto.
Qed.

End transactions.

(** C10.  [calculate_hash] renders an amount that is zero like an absent
    one, as the empty string.  So two parsed transactions with the same
    date and payee, whose postings agree one by one on account and
    currency and differ at most in that one has a zero amount where the
    other has none, have the same hash, and whichever is imported second
    is taken for a duplicate of the first: no row is added for it. *)
Theorem calculate_hash_zero_as_absent :
  forall t1 t2 : parser.Transaction.t,
    parser.Transaction.date t1 = parser.Transaction.date t2 ->
    parser.Transaction.payee t1 = parser.Transaction.payee t2 ->
    Forall2 spec.same_up_to_zero
      (parser.Transaction.postings t1) (parser.Transaction.postings t2) ->
    (forall p, spec.zero_or_absent (parser.Posting.amount p) ->
               parser.amount_str p = "")
    /\ parser.calculate_hash t1 = parser.calculate_hash t2
    /\ (forall db,
          let db1 := snd (importer.get_or_create_transaction db t1) in
          importer.get_or_create_transaction db1 t2 = (Ok None, db1))
    /\ (forall db,
          let db2 := snd (importer.get_or_create_transaction db t2) in
          importer.get_or_create_transaction db2 t1 = (Ok None, db2)).
Proof.
  intros t1 t2 Hd Hp Hps.
  assert (Hh : parser.calculate_hash t1 = parser.calculate_hash t2).
  { unfold parser.calculate_hash. f_equal.
    apply hash_content_same; try assumption.
    now apply sorted_same_up_to_zero. }
  split; [exact amount_str_zero_or_absent|]. split; [exact Hh|]. split.
  - intros db db1. apply get_or_create_transaction_duplicate.
    rewrite <- Hh. subst db1.
    destruct (get_or_create_transaction_table db t1) as (r & db' & -> & _ & Hk).
    exact Hk.
  - intros db db2. apply get_or_create_transaction_duplicate.
    rewrite Hh. subst db2.
    destruct (get_or_create_transaction_table db t2) as (r & db' & -> & _ & Hk).
    exact Hk.
Qed.

(** ** What the parser builds *)

Section parsed.

Import parser.
Local Open Scope list_scope.








End parsed.

(** ** The inference of the missing amount *)

Section inference.

Import importer.
Local Open Scope list_scope.


Lemma decimal_eqb_refl d : Decimal.eqb d d = true.
Proof. unfold Decimal.eqb, Decimal.cmp. now rewrite Z.compare_refl. Qed.




End inference.


(** ** The import run *)

Section run.

Import importer.
Local Open Scope list_scope.

Variable process :
  Session.t -> ParsedTransaction.t -> result (option Transaction.t) * Session.t.



End run.

Section rerun.

Import importer.
Local Open Scope list_scope.

(** A run over transactions whose hashes are all in the table skips
    each of them and leaves the store as it is. *)
Lemma import_loop_known pts : forall i s db,
  (forall t, In t pts -> spec.known db (parser.calculate_hash t)) ->
  fold_left (import_transaction get_or_create_transaction) pts (i, s, db)
  = (i, s + List.length pts, db).
Proof.
  induction pts as [|t pts IH]; intros i s db Hk; simpl.
  - now rewrite Nat.add_0_r.
  - rewrite get_or_create_transaction_duplicate by (apply Hk; now left).
    rewrite IH by (intros x Hx; apply Hk; now right).
    f_equal. f_equal. lia.
Qed.

Lemma import_transaction_snd st t :
  snd (import_transaction get_or_create_transaction st t)
  = snd (get_or_create_transaction (snd st) t).
Proof.
  destruct st as [[i s] db]. simpl.
  destruct (get_or_create_transaction db t) as [[[tx|]|e] db1]; reflexivity.
Qed.

(** After a run the hash of every transaction of the run is in the
    table, next to the hashes that were there before. *)
Lemma import_loop_records pts : forall st,
  (forall t, In t pts ->
     spec.known
       (snd (fold_left (import_transaction get_or_create_transaction) pts st))
       (parser.calculate_hash t))
  /\ (forall h, spec.known (snd st) h ->
        spec.known
          (snd (fold_left (import_transaction get_or_create_transaction) pts st))
          h).
Proof.
  induction pts as [|t pts IH]; intros st; simpl.
  - split; [contradiction|auto].
  - destruct (IH (import_transaction get_or_create_transaction st t))
      as (Hrec & Hkeep).
    rewrite import_transaction_snd in Hkeep. split.
    + intros x [<-|Hx]; [|now apply Hrec].
      apply Hkeep.
      destruct (get_or_create_transaction_table (snd st) t)
        as (r & db' & -> & _ & Hk).
      exact Hk.
    + intros h Hh. apply Hkeep.
      now apply get_or_create_transaction_keeps.
Qed.

Lemma update_account_balances_transactions db :
  Session.transactions (update_account_balances db) = Session.transactions db
  /\ Session.postings (update_account_balances db) = Session.postings db
  /\ Session.accounts (update_account_balances db) = Session.accounts db.
Proof.
  unfold update_account_balances.
  destruct (fold_left _ _ _) as [rows added]. simpl. auto.
Qed.

Lemma known_same_transactions db db' h :
  Session.transactions db' = Session.transactions db ->
  spec.known db h -> spec.known db' h.
Proof. unfold spec.known, transaction_by_hash. now intros ->. Qed.

End rerun.

(** C2.  Importing a file a second time into the store the first import
    left reports [imported = 0] and [skipped = total_parsed], with the
    [total_parsed] of the first import, and adds no transaction, posting
    or account. *)
Theorem import_ledger_file_idempotent :
  forall (fs : importer.files) (db db1 : models.Session.t)
         (file_path : option string) (update_balances update_balances' : bool)
         (c1 : importer.counts),
    importer.import_ledger_file fs db file_path update_balances = (Ok c1, db1) ->
    exists c2 db2,
      importer.import_ledger_file fs db1 file_path update_balances' = (Ok c2, db2)
      /\ importer.imported c2 = 0
      /\ importer.skipped c2 = importer.total_parsed c2
      /\ importer.total_parsed c2 = importer.total_parsed c1
      /\ models.Session.transactions db2 = models.Session.transactions db1
      /\ models.Session.postings db2 = models.Session.postings db1
      /\ models.Session.accounts db2 = models.Session.accounts db1.
Proof.
  intros fs db db1 file_path ub ub' c1.
  unfold importer.import_ledger_file, importer.import_ledger_file_with.
  destruct (fs _) as [lines|]; [|discriminate].
  destruct (parser.parse_ledger_file lines) as [pts|e]; [|discriminate].
  destruct (import_loop_records pts (0, 0, db)) as (Hrec & _).
  destruct (fold_left _ pts (0, 0, db)) as [[i s] dbl] eqn:E1.
  simpl in Hrec. intros [= <- <-].
  assert (Hk : forall t, In t pts ->
                 spec.known (if ub then importer.update_account_balances dbl else dbl)
                   (parser.calculate_hash t)).
  { intros t Ht. destruct ub; [|now apply Hrec].
    eapply known_same_transactions; [|now apply Hrec].
    apply update_account_balances_transactions. }
  rewrite (import_loop_known pts 0 0 _ Hk). simpl.
  eexists _, _. split; [reflexivity|]. simpl.
  repeat split; destruct ub'; try reflexivity;
    apply update_account_balances_transactions.
Qed.


(** ** Balances *)

Section balances.

Import importer.
Local Open Scope list_scope.

Lemma prefix_head a w s :
  String.prefix (String a w) s = true ->
  exists s', s = String a s' /\ String.prefix w s' = true.
Proof.
  destruct s as [|b s]; simpl; [discriminate|].
  destruct (ascii_dec a b) as [<-|]; [eauto|discriminate].
Qed.

Lemma prefix_nil s : String.prefix "" s = true.
Proof. now destruct s. Qed.

(** A prefix without colon is a prefix of the path exactly when it is
    one of its first segment. *)
Lemma prefix_top_segment w : forall s,
  (forall c, In c (list_ascii_of_string w) -> c <> ":"%char) ->
  String.prefix w s = String.prefix w (spec.top_segment s).
Proof.
  unfold spec.top_segment.
  induction w as [|a w IH]; intros s Hw; [now rewrite !prefix_nil|].
  destruct s as [|b s]; [reflexivity|]. simpl.
  destruct (Ascii.eqb_spec b ":") as [->|Hb]; simpl.
  - destruct (ascii_dec a ":") as [Ha|]; [|reflexivity].
    exfalso. apply (Hw a); [now left|exact Ha].
  - pose proof (split_not_nil ":" s) as Hnil.
    specialize (IH s (fun c Hc => Hw c (or_intror Hc))).
    destruct (Py.split ":" s) as [|h t]; [contradiction|]. simpl in *.
    destruct (ascii_dec a b); [exact IH|reflexivity].
Qed.

Lemma flips_sign_top_segment path :
  spec.flips_sign path = spec.flips_sign (spec.top_segment path).
Proof.
  unfold spec.flips_sign, Py.startswith.
  rewrite (prefix_top_segment "Income" path),
    (prefix_top_segment "Liabilities" path),
    (prefix_top_segment "Equity" path); [reflexivity| | |];
    intros c Hc; simpl in Hc;
    repeat (destruct Hc as [<-|Hc]; [discriminate|]); contradiction.
Qed.

(** The five tests of [calculate_account_balance] come to one. *)
Lemma display_sign (path : string) (raw : Decimal.t) :
  (if Py.startswith path "Assets" then raw
   else if Py.startswith path "Income" then Decimal.neg raw
   else if Py.startswith path "Expenses" then raw
   else if Py.startswith path "Liabilities" || Py.startswith path "Equity"
   then Decimal.neg raw else raw)
  = if spec.flips_sign path then Decimal.neg raw else raw.
Proof.
  unfold spec.flips_sign, Py.startswith.
  destruct (String.prefix "Assets" path) eqn:EA.
  - apply prefix_head in EA as (s' & -> & _). reflexivity.
  - destruct (String.prefix "Income" path) eqn:EI; [reflexivity|].
    destruct (String.prefix "Expenses" path) eqn:EE; [|reflexivity].
    apply prefix_head in EE as (s' & -> & EE).
    apply prefix_head in EE as (s'' & -> & _). reflexivity.
Qed.

Lemma decimal_eqb_zero_00 (b : bool) :
  Decimal.eqb Decimal.zero_00
    (if b then Decimal.neg (Decimal.sum []) else Decimal.sum []) = true.
Proof. now destruct b. Qed.

End balances.

(** C5, as amended.  The display balance of an account is its raw
    balance with a sign that depends on the first segment of its path:
    it is the opposite of the raw balance when that segment starts with
    [Income], [Liabilities] or [Equity], and the raw balance otherwise
    (also for [Assets] and [Expenses]).  A first segment that has one of
    the three names as a proper prefix, as [Incomes], is treated like
    the name itself. *)
Theorem display_balance_sign :
  forall (db : models.Session.t) (account_id : nat) (account : models.Account.t),
    importer.account_by_id db account_id = Some account ->
    let raw := spec.raw_balance db account_id in
    let display := fst (importer.calculate_account_balance db account_id) in
    Decimal.eqb display
      (if spec.flips_sign (spec.top_segment (models.Account.full_path account))
       then Decimal.neg raw else raw) = true
    /\ (spec.postings_of db account_id <> [] ->
        display
        = if spec.flips_sign (spec.top_segment (models.Account.full_path account))
          then Decimal.neg raw else raw).
Proof.
  intros db account_id account Hacc raw display. subst raw display.
  unfold importer.calculate_account_balance, spec.raw_balance, spec.postings_of.
  rewrite Hacc, <- flips_sign_top_segment.
  destruct (List.filter _ (models.Session.postings db)) as [|p0 ps] eqn:E.
  - split; [apply decimal_eqb_zero_00|congruence].
  - cbn [fst]. rewrite display_sign. split; [apply decimal_eqb_refl|reflexivity].
Qed.

(** ** Aliases *)

Section aliases.

Import parser.
Local Open Scope list_scope.

Lemma lstrip_empty_rstrip s : Py.lstrip s = "" -> Py.rstrip s = "".
Proof.
  induction s as [|c s IH]; simpl; [reflexivity|].
  destruct (Py.isspace c); [|discriminate].
  intros H. now rewrite (IH H).
Qed.

Lemma rstrip_idempotent s : Py.rstrip (Py.rstrip s) = Py.rstrip s.
Proof.
  induction s as [|c s IH]; simpl; [reflexivity|].
  destruct (Py.rstrip s) as [|d r] eqn:E.
  - destruct (Py.isspace c) eqn:Ec; simpl; [reflexivity|]. now rewrite Ec.
  - change (Py.rstrip (String c (String d r)))
      with (match Py.rstrip (String d r) with
            | "" => if Py.isspace c then "" else String c ""
            | r' => String c r'
            end).
    now rewrite IH.
Qed.

(** A line that is blank once stripped is empty once stripped on the
    right, and no alias directive. *)
Lemma blank_rstrip line :
  Py.truthy (Py.strip (Py.rstrip line)) = false -> Py.rstrip line = "".
Proof.
  unfold Py.strip. rewrite rstrip_idempotent. intros H.
  rewrite <- rstrip_idempotent. apply lstrip_empty_rstrip.
  now destruct (Py.lstrip (Py.rstrip line)).
Qed.

Lemma blank_no_alias line :
  Py.truthy (Py.strip (Py.rstrip line)) = false ->
  re.match_ ALIAS_PATTERN (Py.rstrip line) = None.
Proof. intros H. now rewrite (blank_rstrip line H). Qed.



End aliases.

(** ** The cache of balances *)

Section cache.

Import importer.
Local Open Scope list_scope.

Lemma find_set_balance_same id balance currency rows r :
  find (fun x => Nat.eqb (AccountBalance.account_id x) id) rows = Some r ->
  exists r',
    find (fun x => Nat.eqb (AccountBalance.account_id x) id)
      (set_balance id balance currency rows) = Some r'
    /\ AccountBalance.balance r' = balance
    /\ AccountBalance.currency r' = currency.
Proof.
  induction rows as [|x rows IH]; simpl; [discriminate|].
  destruct (Nat.eqb (AccountBalance.account_id x) id) eqn:E; simpl.
  - intros _. rewrite Nat.eqb_refl. eauto.
  - rewrite E. exact IH.
Qed.

Lemma find_set_balance_other id id' balance currency rows :
  id <> id' ->
  find (fun x => Nat.eqb (AccountBalance.account_id x) id')
    (set_balance id balance currency rows)
  = find (fun x => Nat.eqb (AccountBalance.account_id x) id') rows.
Proof.
  intros Hne. induction rows as [|x rows IH]; simpl; [reflexivity|].
  destruct (Nat.eqb_spec (AccountBalance.account_id x) id) as [Hx|Hx]; simpl.
  - destruct (Nat.eqb_spec id id'); [contradiction|].
    destruct (Nat.eqb_spec (AccountBalance.account_id x) id'); [congruence|].
    reflexivity.
  - destruct (Nat.eqb (AccountBalance.account_id x) id'); [reflexivity|].
    exact IH.
Qed.

(** What the loop of [update_account_balances] keeps true once the
    accounts [done] are behind it: the rows it added hold the balance
    computed for their account, and so does the first row of every
    account of [done]. *)
Lemma update_account_balance_caches db done st account :
  (Forall (fun r =>
             AccountBalance.balance r
             = fst (calculate_account_balance db (AccountBalance.account_id r))
             /\ AccountBalance.currency r
                = snd (calculate_account_balance db (AccountBalance.account_id r)))
     (snd st)
   /\ forall a, In a done -> spec.caches db (fst st ++ snd st) (Account.id a)) ->
  let st' := update_account_balance db st account in
  Forall (fun r =>
            AccountBalance.balance r
            = fst (calculate_account_balance db (AccountBalance.account_id r))
            /\ AccountBalance.currency r
               = snd (calculate_account_balance db (AccountBalance.account_id r)))
    (snd st')
  /\ forall a, In a (done ++ [account]) ->
               spec.caches db (fst st' ++ snd st') (Account.id a).
Proof.
  destruct st as [rows added]. cbn [fst snd]. intros (Hadded & Hdone).
  unfold update_account_balance, spec.caches in *.
  destruct (calculate_account_balance db (Account.id account))
    as [balance currency] eqn:Ecalc.
  destruct (find _ rows) as [r0|] eqn:Efind; cbn [fst snd].
  - split; [exact Hadded|]. intros a Ha.
    destruct (Nat.eq_dec (Account.id account) (Account.id a)) as [Heq|Hne].
    + destruct (find_set_balance_same _ balance currency rows r0 Efind)
        as (r' & Hr' & Hb & Hc).
      exists r'. rewrite <- Heq, find_app, Hr', Ecalc. auto.
    + apply in_app_or in Ha as [Ha|[<-|[]]]; [|contradiction].
      destruct (Hdone a Ha) as (r & Hr & Hb & Hc).
      exists r. rewrite find_app in *.
      rewrite find_set_balance_other by exact Hne. auto.
  - split.
    + apply Forall_app. split; [exact Hadded|].
      constructor; [|constructor]. simpl. now rewrite Ecalc.
    + intros a Ha. apply in_app_or in Ha as [Ha|[<-|[]]].
      * destruct (Hdone a Ha) as (r & Hr & Hb & Hc).
        exists r. rewrite app_assoc, find_app, Hr. auto.
      * rewrite !find_app, Efind.
        destruct (find _ added) as [r|] eqn:Eadded.
        -- apply find_some in Eadded as (Hin & Hid).
           apply Nat.eqb_eq in Hid.
           rewrite List.Forall_forall in Hadded.
           destruct (Hadded r Hin) as (Hb & Hc).
           exists r. rewrite <- Hid. auto.
        -- simpl. rewrite Nat.eqb_refl. eexists. split; [reflexivity|].
           simpl. now rewrite Ecalc.
Qed.

Lemma update_account_balances_loop db accounts : forall done st,
  (Forall (fun r =>
             AccountBalance.balance r
             = fst (calculate_account_balance db (AccountBalance.account_id r))
             /\ AccountBalance.currency r
                = snd (calculate_account_balance db (AccountBalance.account_id r)))
     (snd st)
   /\ forall a, In a done -> spec.caches db (fst st ++ snd st) (Account.id a)) ->
  forall a, In a (done ++ accounts) ->
    spec.caches db
      (fst (fold_left (update_account_balance db) accounts st)
         ++ snd (fold_left (update_account_balance db) accounts st))
      (Account.id a).
Proof.
  induction accounts as [|b accounts IH]; intros done st H a Ha; simpl.
  - rewrite app_nil_r in Ha. now apply H.
  - apply (IH (done ++ [b])).
    + now apply update_account_balance_caches.
    + now rewrite <- app_assoc.
Qed.

(** After [update_account_balances] the balance cached for an account
    is the display balance, the first component of what
    [calculate_account_balance] returns, and not the raw sum. *)
Lemma update_account_balances_caches_display db a :
  In a (Session.accounts db) ->
  spec.caches db (Session.account_balances (update_account_balances db))
    (Account.id a).
Proof.
  intros Ha. unfold update_account_balances.
  pose proof (update_account_balances_loop db (Session.accounts db) []
                (Session.account_balances db, [])) as H.
  destruct (fold_left _ _ _) as [rows added]. simpl in *.
  apply H; [|exact Ha]. split; [constructor|contradiction].
Qed.

(** A transaction that is new to the store and has more than one
    posting without amount is not imported, and its row stays. *)
Lemma rejected_transaction_is_flushed db t :
  transaction_by_hash db (parser.calculate_hash t) = None ->
  1 < List.length (List.filter (fun p => negb (has_amount p))
                     (ParsedTransaction.postings t)) ->
  get_or_create_transaction db t
  = (Ok None,
     Session.mk (Session.accounts db)
       (Session.transactions db
          ++ [Transaction.mk
                (models.next_id (map Transaction.id (Session.transactions db)))
                (ParsedTransaction.date t) (ParsedTransaction.payee t)
                (Some (parser.calculate_hash t))])
       (Session.postings db) (Session.account_balances db)).
Proof.
  intros Hnew Hmany. unfold get_or_create_transaction. rewrite Hnew.
  cbv zeta. unfold add_transaction.
  destruct (Nat.eqb_spec
              (List.length (List.filter (fun p => negb (has_amount p))
                              (ParsedTransaction.postings t))) 1) as [E|_];
    [lia|].
  cbn [andb]. apply Nat.ltb_lt in Hmany. now rewrite Hmany.
Qed.

End cache.



(** C1 fails on the code: the transaction of [ledger_two_missing] has
    two postings without amount; the import counts it as skipped and
    stores no posting, and it stores the row of the transaction, which
    was added and flushed before the postings were looked at. *)
Theorem rejected_transaction_row_persisted :
  parser.parse_ledger_file examples.ledger_two_missing = Ok [examples.two_missing]
  /\ importer.import_ledger (examples.disk examples.ledger_two_missing)
       models.Session.empty (Some "ledger.dat")
     = (Ok (importer.mk_counts 0 1 1),
        models.Session.mk []
          [models.Transaction.mk 1 (datetime.mk 2024 3 2) "Cash withdrawal"
             (Some (parser.calculate_hash examples.two_missing))]
          [] []).
Proof. split; vm_compute; reflexivity. Qed.

(** C3 fails on the code: after the import of [ledger] the postings of
    [Income:Salary] sum to -40000.00, and the balance cached for the
    account is 40000.00, the display balance. *)
Theorem cached_balance_is_display_balance :
  importer.account_by_path examples.imported_store "Income:Salary"
  = Some (models.Account.mk 7 "Salary" "Income:Salary" (Some 6))
  /\ spec.raw_balance examples.imported_store 7 = Decimal.mk (-4000000) (-2)
  /\ find (fun r => Nat.eqb (models.AccountBalance.account_id r) 7)
       (models.Session.account_balances examples.imported_store)
     = Some (models.AccountBalance.mk 7 7 (Decimal.mk 4000000 (-2)) "INR").
Proof. repeat split; vm_compute; reflexivity. Qed.

(** C5 fails as stated: the first segment of [Incomes:Misc] is
    [Incomes], not [Income]; the postings of the account sum to 500.00
    and its display balance is -500.00. *)
Lemma incomes_balance_is_flipped :
  importer.account_by_id examples.incomes_store 2
  = Some (models.Account.mk 2 "Misc" "Incomes:Misc" (Some 1))
  /\ spec.top_segment "Incomes:Misc" = "Incomes"
  /\ spec.raw_balance examples.incomes_store 2 = Decimal.mk 50000 (-2)
  /\ importer.calculate_account_balance examples.incomes_store 2
     = (Decimal.mk (-50000) (-2), "INR").
Proof. repeat split; vm_compute; reflexivity. Qed.



(** ** The theorems at concrete inputs *)

Lemma import_ledger_file_idempotent_witness :
  importer.import_ledger_file (examples.disk examples.ledger)
    models.Session.empty (Some "ledger.dat") true
  = (Ok (importer.mk_counts 2 0 2), examples.imported_store)
  /\ exists c2 db2,
       importer.import_ledger_file (examples.disk examples.ledger)
         examples.imported_store (Some "ledger.dat") true = (Ok c2, db2)
       /\ importer.imported c2 = 0
       /\ importer.skipped c2 = importer.total_parsed c2
       /\ importer.total_parsed c2 = 2
       /\ models.Session.transactions db2
          = models.Session.transactions examples.imported_store
       /\ models.Session.postings db2
          = models.Session.postings examples.imported_store
       /\ models.Session.accounts db2
          = models.Session.accounts examples.imported_store.
Proof.
  assert (H : importer.import_ledger_file (examples.disk examples.ledger)
                models.Session.empty (Some "ledger.dat") true
              = (Ok (importer.mk_counts 2 0 2), examples.imported_store))
    by (vm_compute; reflexivity).
  split; [exact H|].
  exact (import_ledger_file_idempotent (examples.disk examples.ledger)
           models.Session.empty examples.imported_store (Some "ledger.dat")
           true true (importer.mk_counts 2 0 2) H).
Defined.

Lemma display_balance_sign_witness :
  importer.account_by_id examples.imported_store 7
  = Some (models.Account.mk 7 "Salary" "Income:Salary" (Some 6))
  /\ Decimal.eqb
       (fst (importer.calculate_account_balance examples.imported_store 7))
       (if spec.flips_sign (spec.top_segment "Income:Salary")
        then Decimal.neg (spec.raw_balance examples.imported_store 7)
        else spec.raw_balance examples.imported_store 7) = true.
Proof.
  assert (H : importer.account_by_id examples.imported_store 7
              = Some (models.Account.mk 7 "Salary" "Income:Salary" (Some 6)))
    by (vm_compute; reflexivity).
  split; [exact H|].
  exact (proj1 (display_balance_sign examples.imported_store 7 _ H)).
Defined.



Lemma calculate_hash_zero_as_absent_witness :
  parser.Transaction.date examples.adjustment_zero
  = parser.Transaction.date examples.adjustment_absent
  /\ parser.Transaction.payee examples.adjustment_zero
     = parser.Transaction.payee examples.adjustment_absent
  /\ Forall2 spec.same_up_to_zero
       (parser.Transaction.postings examples.adjustment_zero)
       (parser.Transaction.postings examples.adjustment_absent)
  /\ parser.calculate_hash examples.adjustment_zero
     = parser.calculate_hash examples.adjustment_absent
  /\ (forall db,
        let db1 := snd (importer.get_or_create_transaction db
                          examples.adjustment_zero) in
        importer.get_or_create_transaction db1 examples.adjustment_absent
        = (Ok None, db1)).
Proof.
  assert (H : Forall2 spec.same_up_to_zero
                (parser.Transaction.postings examples.adjustment_zero)
                (parser.Transaction.postings examples.adjustment_absent)).
  { constructor.
    - split; [reflexivity|]. split; [reflexivity|]. right. simpl. auto.
    - constructor; [|constructor].
      split; [reflexivity|]. split; [reflexivity|]. left. reflexivity. }
  split; [reflexivity|]. split; [reflexivity|]. split; [exact H|].
  pose proof (calculate_hash_zero_as_absent examples.adjustment_zero
                examples.adjustment_absent eq_refl eq_refl H)
    as (_ & Hhash & Hdup & _).
  split; [exact Hhash|exact Hdup].
Defined.

(** * Further properties of the parser *)

Section alias_expansion.

Import parser.
Local Open Scope list_scope.

(** What a path segment expands to. *)
Lemma expand_aliases_flat_map (aliases : gmap string string) account :
  expand_aliases aliases account
  = Py.join ":"
      (flat_map (fun part => match aliases !! part with
                             | Some v => Py.split ":" v
                             | None => [part]
                             end)
         (Py.split ":" account)).
Proof.
  unfold expand_aliases. f_equal.
  set (f := fun part : string => match aliases !! part with
                                 | Some v => Py.split ":" v
                                 | None => [part]
                                 end).
  assert (H : forall parts acc,
             fold_left (fun expanded_parts part =>
                          match aliases !! part with
                          | Some v => expanded_parts ++ Py.split ":" v
                          | None => expanded_parts ++ [part]
                          end) parts acc
             = acc ++ flat_map f parts).
  { induction parts as [|p parts IH]; intros acc; simpl.
    - now rewrite app_nil_r.
    - rewrite IH. unfold f at 2. destruct (aliases !! p);
        now rewrite <- app_assoc. }
  apply (H _ []).
Qed.

Lemma split_app_sep sep a b :
  Py.split sep (a ++ String sep b)%string = Py.split sep a ++ Py.split sep b.
Proof.
  induction a as [|c a IH]; simpl.
  - now rewrite Ascii.eqb_refl.
  - destruct (Ascii.eqb c sep).
    + now rewrite IH.
    + rewrite IH. pose proof (split_not_nil sep a) as Hnil.
      destruct (Py.split sep a); [contradiction|reflexivity].
Qed.

Lemma string_app_assoc (a b c : string) :
  ((a ++ b) ++ c = a ++ (b ++ c))%string.
Proof.
  induction a as [|x a IH]; [reflexivity|].
  change (String x ((a ++ b) ++ c) = String x (a ++ (b ++ c)))%string.
  now rewrite IH.
Qed.

Lemma join_app sep l1 l2 :
  l1 <> [] -> l2 <> [] ->
  Py.join sep (l1 ++ l2) = (Py.join sep l1 ++ sep ++ Py.join sep l2)%string.
Proof.
  unfold Py.join. intros H1 H2.
  induction l1 as [|x l1 IH]; [contradiction|].
  destruct l1 as [|y l1].
  - destruct l2; [contradiction|reflexivity].
  - change (String.concat sep ((x :: y :: l1) ++ l2))
      with (x ++ sep ++ String.concat sep ((y :: l1) ++ l2))%string.
    rewrite IH by discriminate.
    change (String.concat sep (x :: y :: l1))
      with (x ++ sep ++ String.concat sep (y :: l1))%string.
    now rewrite !string_app_assoc.
Qed.

Lemma split_no_sep sep s :
  (forall c, In c (list_ascii_of_string s) -> c <> sep) ->
  Py.split sep s = [s].
Proof.
  induction s as [|c s IH]; intros H; simpl; [reflexivity|].
  destruct (Ascii.eqb_spec c sep) as [->|_].
  - exfalso. apply (H sep); [now left|reflexivity].
  - rewrite IH; [reflexivity|]. intros x Hx. apply H. now right.
Qed.

Lemma flat_map_not_nil {A B} (f : A -> list B) l :
  l <> [] -> (forall x, f x <> []) -> flat_map f l <> [].
Proof.
  destruct l as [|x l]; [contradiction|]. intros _ Hf. simpl.
  specialize (Hf x). destruct (f x); [contradiction|discriminate].
Qed.

End alias_expansion.

(** X1.  A path none of whose segments is an alias token comes out of
    [expand_aliases] as it went in; so does every path while the alias
    table is empty. *)
Theorem expand_aliases_without_alias :
  forall (aliases : gmap string string) (account : string),
    (forall part, In part (Py.split ":" account) -> aliases !! part = None) ->
    parser.expand_aliases aliases account = account.
Proof.
  intros aliases account H. rewrite expand_aliases_flat_map.
  rewrite <- (join_split ":" account) at 2. f_equal.
  induction (Py.split ":" account) as [|p parts IH]; [reflexivity|].
  simpl. rewrite (H p) by now left. simpl. f_equal.
  apply IH. intros x Hx. apply H. now right.
Qed.

(** X2.  [expand_aliases] works segment by segment: the expansion of two
    paths joined by a colon is the two expansions joined by a colon. *)
Theorem expand_aliases_colon :
  forall (aliases : gmap string string) (a b : string),
    parser.expand_aliases aliases (a ++ ":" ++ b)
    = (parser.expand_aliases aliases a ++ ":" ++ parser.expand_aliases aliases b)%string.
Proof.
  intros aliases a b. rewrite !expand_aliases_flat_map.
  change (a ++ ":" ++ b)%string with (a ++ String ":" b)%string.
  rewrite split_app_sep, flat_map_app.
  apply join_app; apply flat_map_not_nil; try apply split_not_nil;
    intros x; destruct (aliases !! x); try discriminate; apply split_not_nil.
Qed.

(** X3.  A segment that is an alias token is replaced by the value of
    the alias, whatever it holds, and the value is not expanded again:
    expansion is a single pass. *)
Theorem expand_aliases_token :
  forall (aliases : gmap string string) (key value : string),
    aliases !! key = Some value ->
    (forall c, In c (list_ascii_of_string key) -> c <> ":"%char) ->
    parser.expand_aliases aliases key = value.
Proof.
  intros aliases key value Hk Hc. rewrite expand_aliases_flat_map.
  rewrite (split_no_sep ":" key Hc). simpl. rewrite Hk, app_nil_r.
  apply join_split.
Qed.

Lemma expand_aliases_without_alias_witness :
  (forall part, In part (Py.split ":" "Assets:Bank") ->
                (<["A" := "Assets"]> ∅ : gmap string string) !! part = None)
  /\ parser.expand_aliases (<["A" := "Assets"]> ∅) "Assets:Bank" = "Assets:Bank".
Proof.
  assert (H : forall part, In part (Py.split ":" "Assets:Bank") ->
                (<["A" := "Assets"]> ∅ : gmap string string) !! part = None).
  { intros part [<-|[<-|[]]]; vm_compute; reflexivity. }
  split; [exact H|].
  exact (expand_aliases_without_alias _ "Assets:Bank" H).
Defined.

Lemma expand_aliases_token_witness :
  (<["B" := "Liabilities"]> (<["A" := "B:Card"]> ∅) : gmap string string) !! "A"
  = Some "B:Card"
  /\ (forall c, In c (list_ascii_of_string "A") -> c <> ":"%char)
  /\ parser.expand_aliases (<["B" := "Liabilities"]> (<["A" := "B:Card"]> ∅)) "A"
     = "B:Card".
Proof.
  assert (H1 : (<["B" := "Liabilities"]> (<["A" := "B:Card"]> ∅)
                : gmap string string) !! "A" = Some "B:Card")
    by (vm_compute; reflexivity).
  assert (H2 : forall c, In c (list_ascii_of_string "A") -> c <> ":"%char).
  { intros c [<-|[]]. discriminate. }
  split; [exact H1|]. split; [exact H2|].
  exact (expand_aliases_token _ "A" "B:Card" H1 H2).
Defined.

Section amounts.

Import parser.
Local Open Scope list_scope.







Lemma passes_seq a b : store.passes a -> store.passes b -> store.passes (re.Seq a b).
Proof.
  intros Ha Hb k Hk pos s g Hs. cbn [re.run].
  apply (Ha (fun pos' s' g' => re.run b pos' s' g' k)); [|exact Hs].
  now apply Hb.
Qed.












End amounts.




(** X6.  A later alias directive overrides the earlier ones of the same
    token: after a line sequence that ends in a directive, the token of
    that directive is bound to its value. *)
Theorem parse_aliases_last_wins :
  forall (aliases : gmap string string) (lines : list string) (line : string)
         (m : re.groups),
    re.match_ parser.ALIAS_PATTERN (Py.rstrip line) = Some m ->
    fst (parser.parse_aliases aliases (lines ++ [line]))
      !! fst (parser.alias_entry m)
    = Some (snd (parser.alias_entry m)).
Proof.
  intros aliases lines line m Hm. unfold parser.parse_aliases.
  rewrite fold_left_app. cbn [fold_left].
  destruct (fold_left parser.parse_aliases_step lines (aliases, [], true))
    as [[aliases1 remaining] in_aliases].
  unfold parser.parse_aliases_step.
  destruct (Py.truthy (Py.strip (Py.rstrip line))) eqn:Eblank.
  - rewrite andb_false_r, Hm.
    destruct (parser.alias_entry m) as [key value]. simpl.
    apply lookup_insert_eq.
  - rewrite blank_no_alias in Hm by exact Eblank. discriminate.
Qed.

Lemma parse_aliases_last_wins_witness :
  re.match_ parser.ALIAS_PATTERN (Py.rstrip "A=Assets:Cash  ")
  = Some [(4, "Assets:Cash"); (3, "A")]
  /\ fst (parser.parse_aliases ∅ (["alias A=Assets"; "2024/01/01 Shop"]
                                   ++ ["A=Assets:Cash  "]))
       !! fst (parser.alias_entry [(4, "Assets:Cash"); (3, "A")])
     = Some (snd (parser.alias_entry [(4, "Assets:Cash"); (3, "A")])).
Proof.
  assert (H : re.match_ parser.ALIAS_PATTERN (Py.rstrip "A=Assets:Cash  ")
              = Some [(4, "Assets:Cash"); (3, "A")])
    by (vm_compute; reflexivity).
  split; [exact H|].
  exact (parse_aliases_last_wins ∅ ["alias A=Assets"; "2024/01/01 Shop"]
           "A=Assets:Cash  " _ H).
Defined.

Section parsed_shape.

Import parser.
Local Open Scope list_scope.







End parsed_shape.





Section digest.

Import hashlib.
Local Open Scope list_scope.

Lemma round_length st kw : List.length (round st kw) = List.length st.
Proof.
  destruct st as [|a [|b [|c [|d [|e [|f [|g [|h [|i st]]]]]]]]];
    reflexivity.
Qed.

Lemma fold_round_length l : forall st,
  List.length (fold_left round l st) = List.length st.
Proof.
  induction l as [|kw l IH]; intros st; simpl; [reflexivity|].
  now rewrite IH, round_length.
Qed.

Lemma compress_length h block :
  List.length (compress h block) = List.length h.
Proof.
  unfold compress. rewrite length_map, length_combine, fold_round_length.
  apply Nat.min_id.
Qed.

Lemma fold_compress_length bs : forall h,
  List.length (fold_left compress bs h) = List.length h.
Proof.
  induction bs as [|b bs IH]; intros h; simpl; [reflexivity|].
  now rewrite IH, compress_length.
Qed.

Lemma length_string_of_list_ascii l :
  String.length (string_of_list_ascii l) = List.length l.
Proof. induction l; simpl; auto. Qed.

Lemma hex_word_length x : String.length (hex_word x) = 8.
Proof.
  unfold hex_word. now rewrite length_string_of_list_ascii, length_map.
Qed.

Lemma concat_hex_words_length ws :
  String.length (String.concat "" (map hex_word ws)) = 8 * List.length ws.
Proof.
  induction ws as [|w ws IH]; [reflexivity|].
  destruct ws as [|w' ws].
  - change (String.length (hex_word w) = 8). apply hex_word_length.
  - change (String.concat "" (map hex_word (w :: w' :: ws)))
      with (hex_word w ++ "" ++ String.concat "" (map hex_word (w' :: ws)))%string.
    rewrite (length_append (hex_word w)), (length_append ""), IH.
    rewrite (hex_word_length w). simpl. lia.
Qed.

Lemma hex_digit_of_nat_is_hex k :
  k < 16 -> store.is_hex_digit (hex_digit (N.of_nat k)) = true.
Proof.
  intros Hk. do 16 (destruct k as [|k]; [reflexivity|]). lia.
Qed.

Lemma hex_digit_is_hex x :
  store.is_hex_digit (hex_digit (N.land x 15)) = true.
Proof.
  change 15%N with (N.ones 4). rewrite N.land_ones.
  rewrite <- (N2Nat.id (x mod 2 ^ 4)). apply hex_digit_of_nat_is_hex.
  pose proof (N.mod_upper_bound x (2 ^ 4)) as H.
  change (2 ^ 4)%N with 16%N in *. lia.
Qed.

Lemma hex_word_is_hex x :
  Forall (fun c => store.is_hex_digit c = true)
    (list_ascii_of_string (hex_word x)).
Proof.
  unfold hex_word. rewrite list_ascii_of_string_of_list_ascii.
  apply Forall_map, List.Forall_forall. intros i _. apply hex_digit_is_hex.
Qed.

Lemma list_ascii_of_append (a b : string) :
  list_ascii_of_string (a ++ b)%string
  = list_ascii_of_string a ++ list_ascii_of_string b.
Proof.
  induction a as [|c a IH]; [reflexivity|].
  change (String c a ++ b)%string with (String c (a ++ b)%string).
  simpl. now rewrite IH.
Qed.

Lemma concat_hex_words_is_hex ws :
  Forall (fun c => store.is_hex_digit c = true)
    (list_ascii_of_string (String.concat "" (map hex_word ws))).
Proof.
  induction ws as [|w ws IH]; [constructor|].
  destruct ws as [|w' ws].
  - change (Forall (fun c => store.is_hex_digit c = true)
              (list_ascii_of_string (hex_word w))).
    apply hex_word_is_hex.
  - change (String.concat "" (map hex_word (w :: w' :: ws)))
      with (hex_word w ++ "" ++ String.concat "" (map hex_word (w' :: ws)))%string.
    rewrite !list_ascii_of_append. apply Forall_app. split.
    + apply hex_word_is_hex.
    + exact IH.
Qed.

End digest.

(** X9.  The hash of a transaction is a text of 64 hexadecimal digits in
    lower case, whatever the transaction holds: it fits the column
    [transaction_hash], a [String(64)]. *)
Theorem calculate_hash_is_64_hex_digits :
  forall t : parser.Transaction.t,
    String.length (parser.calculate_hash t) = 64
    /\ Forall (fun c => store.is_hex_digit c = true)
         (list_ascii_of_string (parser.calculate_hash t)).
Proof.
  intros t. unfold parser.calculate_hash, hashlib.sha256_hexdigest.
  cbv zeta. split.
  - rewrite concat_hex_words_length, fold_compress_length. reflexivity.
  - apply concat_hex_words_is_hex.
Qed.

Section sorted_postings.

Import parser.
Local Open Scope list_scope.

Lemma insert_by_account_perm p l :
  Permutation (insert_by_account p l) (p :: l).
Proof.
  induction l as [|q l IH]; simpl; [reflexivity|].
  destruct (String.leb _ _); [reflexivity|].
  rewrite IH. apply perm_swap.
Qed.

End sorted_postings.

(** X10.  The postings enter the hashed text in the order
    [sorted_by_account] gives them: each posting once, the account paths
    ascending, and the postings of one account in their order in the
    transaction. *)
Theorem sorted_by_account_sorts :
  forall l : list parser.Posting.t,
    Permutation (parser.sorted_by_account l) l
    /\ spec.ascending (parser.sorted_by_account l)
    /\ (forall a, spec.on_account a (parser.sorted_by_account l)
                  = spec.on_account a l).
Proof.
  intros l. split; [|split].
  - induction l as [|p l IH]; simpl; [reflexivity|].
    rewrite insert_by_account_perm. now constructor.
  - apply sorted_by_account_ascending.
  - intros a. apply on_account_sorted.
Qed.

(** * Further properties of the importer *)

(** Closes the constraints of a store on tables without rows. *)
Ltac empty_tables :=
  repeat split; try apply NoDup_nil_2;
  try (intros ? Hin; destruct Hin);
  try match goal with H : In _ _ |- _ => destruct H end.

Section account_tree.

Import importer.
Local Open Scope list_scope.

Lemma next_id_fresh ids : ~ In (models.next_id ids) ids.
Proof.
  unfold models.next_id. intros H.
  assert (Hle : Forall (fun k => k <= list_max ids) ids)
    by now apply list_max_le.
  rewrite List.Forall_forall in Hle. specialize (Hle _ H). lia.
Qed.

Lemma account_by_path_some db path a :
  account_by_path db path = Some a ->
  In a (Session.accounts db) /\ Account.full_path a = path.
Proof.
  unfold account_by_path. intros H. apply find_some in H as [Hin Heq].
  split; [exact Hin|]. now apply String.eqb_eq.
Qed.

Lemma account_by_path_none db path :
  account_by_path db path = None ->
  ~ In path (map Account.full_path (Session.accounts db)).
Proof.
  unfold account_by_path. intros H Hin.
  apply in_map_iff in Hin as (a & <- & Ha).
  pose proof (find_none _ _ H a Ha) as Hf. simpl in Hf.
  rewrite String.eqb_refl in Hf. discriminate.
Qed.

Lemma join_snoc sep l x :
  l <> [] -> Py.join sep (l ++ [x]) = (Py.join sep l ++ sep ++ x)%string.
Proof. intros H. apply join_app; [exact H|discriminate]. Qed.

Lemma NoDup_snoc {A} (l : list A) x : NoDup l -> ~ In x l -> NoDup (l ++ [x]).
Proof.
  intros Hl Hx. apply NoDup_app. split; [exact Hl|].
  split; [|apply NoDup_singleton].
  intros y Hy Hy'. apply list_elem_of_singleton in Hy'. subst y.
  apply Hx. now apply list_elem_of_In.
Qed.

Lemma create_prefix_ok parts i st :
  i < List.length parts ->
  store.at_prefix parts i st ->
  store.at_prefix parts (S i) (create_prefix parts st (i, nth i parts "")).
Proof.
  destruct st as [parent db]. unfold store.at_prefix, store.accounts_ok.
  cbn [fst snd]. intros Hi (Hok & Hparent). unfold create_prefix.
  replace (i + 1) with (S i) by lia.
  destruct (account_by_path db (Py.join ":" (firstn (S i) parts)))
    as [a|] eqn:E; unfold add_account; cbn [fst snd Session.accounts].
  - split; [exact Hok|]. apply account_by_path_some in E as [Hin Hp]. eauto.
  - destruct Hok as (Hids & Hpaths & Htree).
    split; [|eexists; split; [reflexivity|]; split;
               [apply in_or_app; right; now left|reflexivity]].
    split; [|split].
    + rewrite map_app. apply NoDup_snoc; [exact Hids|]. apply next_id_fresh.
    + rewrite map_app. apply NoDup_snoc; [exact Hpaths|].
      now apply account_by_path_none.
    + intros a Ha. apply in_app_or in Ha as [Ha|[<-|[]]].
      * specialize (Htree a Ha). destruct (Account.parent_id a); [|exact Htree].
        destruct Htree as (b & Hb & Hrest). exists b.
        split; [apply in_or_app; now left|exact Hrest].
      * cbn [Account.parent_id Account.full_path Account.name].
        destruct i as [|j].
        -- rewrite Hparent. simpl. destruct parts; [simpl in Hi; lia|reflexivity].
        -- destruct Hparent as (b & -> & Hb & Hpath). simpl.
           exists b. split; [apply in_or_app; now left|]. split; [reflexivity|].
           rewrite (firstn_snoc parts (S j) "") by lia.
           rewrite join_snoc, Hpath; [reflexivity|].
           destruct parts; [simpl in Hi; lia|discriminate].
Qed.

Lemma create_prefix_grows parts st ip :
  exists l, Session.accounts (snd (create_prefix parts st ip))
            = Session.accounts (snd st) ++ l.
Proof.
  destruct st as [parent db], ip as [i part]. unfold create_prefix.
  destruct (account_by_path db _); unfold add_account;
    cbn [snd Session.accounts].
  - exists []. now rewrite app_nil_r.
  - eexists. reflexivity.
Qed.

Lemma create_prefixes_grow parts ips : forall st,
  exists l, Session.accounts (snd (fold_left (create_prefix parts) ips st))
            = Session.accounts (snd st) ++ l.
Proof.
  induction ips as [|ip ips IH]; intros st; simpl.
  - exists []. now rewrite app_nil_r.
  - destruct (IH (create_prefix parts st ip)) as (l & ->).
    destruct (create_prefix_grows parts st ip) as (l' & ->).
    exists (l' ++ l). now rewrite app_assoc.
Qed.

Lemma create_prefixes_ok parts : forall ps pre st,
  parts = pre ++ ps ->
  store.at_prefix parts (List.length pre) st ->
  store.at_prefix parts (List.length parts)
    (fold_left (create_prefix parts)
       (combine (seq (List.length pre) (List.length ps)) ps) st).
Proof.
  induction ps as [|p ps IH]; intros pre st Hparts Hst.
  - rewrite app_nil_r in Hparts. subst. exact Hst.
  - change (combine (seq (List.length pre) (List.length (p :: ps))) (p :: ps))
      with ((List.length pre, p)
              :: combine (seq (S (List.length pre)) (List.length ps)) ps).
    cbn [fold_left].
    assert (Hlen : List.length pre < List.length parts)
      by (subst; rewrite length_app; simpl; lia).
    assert (Hp : p = nth (List.length pre) parts "")
      by (subst parts; now rewrite app_nth2, Nat.sub_diag by lia).
    rewrite Hp at 1.
    specialize (IH (pre ++ [p]) (create_prefix parts st
                                   (List.length pre, nth (List.length pre) parts ""))).
    rewrite length_app in IH. simpl in IH.
    replace (List.length pre + 1) with (S (List.length pre)) in IH by lia.
    apply IH; [subst; now rewrite <- app_assoc|].
    now apply create_prefix_ok.
Qed.

Lemma get_or_create_account_ok db path :
  store.accounts_ok db ->
  store.accounts_ok (snd (get_or_create_account db path)).
Proof.
  intros Hok. unfold get_or_create_account.
  destruct (account_by_path db path); [exact Hok|].
  apply (create_prefixes_ok (Py.split ":" path) (Py.split ":" path) []
           (None, db) eq_refl).
  split; [exact Hok|reflexivity].
Qed.

Lemma get_or_create_account_grows db path :
  exists l, Session.accounts (snd (get_or_create_account db path))
            = Session.accounts db ++ l.
Proof.
  unfold get_or_create_account.
  destruct (account_by_path db path); cbn [snd].
  - exists []. now rewrite app_nil_r.
  - apply (create_prefixes_grow _ _ (None, db)).
Qed.

End account_tree.

(** X11.  [get_or_create_account] returns a row of the store it leaves,
    and the path of that row is the path asked for.  It removes and
    changes nothing: the accounts it found are still there, in place,
    before the ones it created, and the other tables are as they were. *)
Theorem get_or_create_account_returns :
  forall (db : models.Session.t) (path : string),
    exists a db' created,
      importer.get_or_create_account db path = (Some a, db')
      /\ In a (models.Session.accounts db')
      /\ models.Account.full_path a = path
      /\ models.Session.accounts db' = (models.Session.accounts db ++ created)%list
      /\ models.Session.transactions db' = models.Session.transactions db
      /\ models.Session.postings db' = models.Session.postings db
      /\ models.Session.account_balances db' = models.Session.account_balances db.
Proof.
  intros db path.
  destruct (get_or_create_account_found db path) as (a & Ha & Hfind).
  destruct (get_or_create_account_grows db path) as (created & Hgrow).
  destruct (get_or_create_account_tables db path) as (Ht & Hp & Hb).
  apply account_by_path_some in Hfind as [Hin Hpath].
  destruct (importer.get_or_create_account db path) as [r db'].
  simpl in *. subst r. exists a, db', created. repeat split; assumption.
Qed.

(** X12.  [get_or_create_account] keeps the constraints of the table of
    accounts: the keys stay distinct, the paths stay distinct, and every
    row stays tied to its parent, whose path is the path of the row
    without its last segment; a row without parent has a path of one
    segment. *)
Theorem get_or_create_account_keeps_tree :
  forall (db : models.Session.t) (path : string),
    store.accounts_ok db ->
    store.accounts_ok (snd (importer.get_or_create_account db path)).
Proof. exact get_or_create_account_ok. Qed.

Lemma get_or_create_account_keeps_tree_witness :
  store.accounts_ok models.Session.empty
  /\ store.accounts_ok
       (snd (importer.get_or_create_account models.Session.empty
               "Assets:Banking:Checking")).
Proof.
  assert (H : store.accounts_ok models.Session.empty) by empty_tables.
  split; [exact H|].
  exact (get_or_create_account_keeps_tree models.Session.empty
           "Assets:Banking:Checking" H).
Defined.

Section transaction_rows.

Import importer.
Local Open Scope list_scope.

Lemma transaction_by_hash_none db h :
  transaction_by_hash db h = None -> ~ In h (store.hashes db).
Proof.
  unfold transaction_by_hash, store.hashes. intros H Hin.
  apply in_flat_map in Hin as (t & Ht & Hh).
  pose proof (find_none _ _ H t Ht) as Hf. simpl in Hf.
  destruct (Transaction.transaction_hash t); [|destruct Hh].
  destruct Hh as [->|[]]. rewrite String.eqb_refl in Hf. discriminate.
Qed.

Lemma balances_ok_grows db db' l :
  Session.account_balances db' = Session.account_balances db ->
  Session.accounts db' = Session.accounts db ++ l ->
  store.balances_ok db -> store.balances_ok db'.
Proof.
  unfold store.balances_ok. intros -> -> (H1 & H2 & H3).
  split; [exact H1|]. split; [exact H2|].
  intros b Hb. destruct (H3 b Hb) as (a & Ha & Hid).
  exists a. split; [apply in_or_app; now left|exact Hid].
Qed.

Lemma postings_ok_grows db db' la lt :
  Session.postings db' = Session.postings db ->
  Session.accounts db' = Session.accounts db ++ la ->
  Session.transactions db' = Session.transactions db ++ lt ->
  store.postings_ok db -> store.postings_ok db'.
Proof.
  unfold store.postings_ok. intros -> -> -> (H1 & H2).
  split; [exact H1|]. intros p Hp.
  destruct (H2 p Hp) as ((a & Ha & Hida) & (t & Ht & Hidt)).
  split; [exists a|exists t]; (split; [apply in_or_app; now left|assumption]).
Qed.

(** The constraints hold again once the row of the transaction is
    flushed, if its hash was not in the table. *)
Lemma add_transaction_ok db date payee h :
  transaction_by_hash db h = None ->
  store.well_formed db ->
  store.well_formed (snd (add_transaction db date payee h)).
Proof.
  intros Hnew (Ha & (Hti & Hth) & Hp & Hb). unfold add_transaction.
  cbn [snd]. split; [exact Ha|]. split; [|split].
  - unfold store.transactions_ok, store.hashes.
    cbn [Session.transactions]. rewrite map_app, flat_map_app.
    cbn [map flat_map Transaction.id Transaction.transaction_hash app].
    split; apply NoDup_snoc; try assumption.
    + apply next_id_fresh.
    + now apply transaction_by_hash_none.
  - eapply (postings_ok_grows db _ []); [reflexivity| |reflexivity|exact Hp].
    cbn [Session.accounts]. now rewrite app_nil_r.
  - eapply (balances_ok_grows db _ []); [reflexivity| |exact Hb].
    cbn [Session.accounts]. now rewrite app_nil_r.
Qed.

(** The constraints hold again once a posting row is added that
    points to an account and to a transaction of the store. *)
Lemma posting_row_ok db db' l r :
  store.well_formed db ->
  store.accounts_ok db' ->
  Session.accounts db' = Session.accounts db ++ l ->
  Session.transactions db' = Session.transactions db ->
  Session.account_balances db' = Session.account_balances db ->
  Session.postings db' = Session.postings db ++ [r] ->
  PostingModel.id r = models.next_id (map PostingModel.id (Session.postings db)) ->
  (exists a, In a (Session.accounts db')
             /\ Account.id a = PostingModel.account_id r) ->
  (exists t, In t (Session.transactions db)
             /\ Transaction.id t = PostingModel.transaction_id r) ->
  store.well_formed db'.
Proof.
  intros (Ha & Ht & (Hpi & Hpk) & Hb) Ha' Hacc Htx Hbal Hpost Hid Hfa Hft.
  split; [exact Ha'|]. split; [|split].
  - unfold store.transactions_ok, store.hashes in *. now rewrite Htx.
  - unfold store.postings_ok. rewrite Hpost, Htx, map_app. split.
    + apply NoDup_snoc; [exact Hpi|]. cbn [map]. rewrite Hid.
      apply next_id_fresh.
    + intros p Hp. apply in_app_or in Hp as [Hp|[<-|[]]].
      * destruct (Hpk p Hp) as ((a & Hin & Hida) & Hrest).
        split; [|exact Hrest]. exists a. rewrite Hacc.
        split; [apply in_or_app; now left|exact Hida].
      * split; assumption.
  - eapply balances_ok_grows; eassumption.
Qed.

Lemma create_posting_full tx db p :
  exists db' r a l,
    create_posting tx db p = (Ok tt, db')
    /\ Session.postings db' = Session.postings db ++ [r]
    /\ Session.accounts db' = Session.accounts db ++ l
    /\ Session.transactions db' = Session.transactions db
    /\ Session.account_balances db' = Session.account_balances db
    /\ In a (Session.accounts db')
    /\ Account.full_path a = ParsedPosting.account p
    /\ PostingModel.account_id r = Account.id a
    /\ PostingModel.transaction_id r = Transaction.id tx
    /\ PostingModel.id r
       = models.next_id (map PostingModel.id (Session.postings db))
    /\ (store.accounts_ok db -> store.accounts_ok db').
Proof.
  unfold create_posting.
  destruct (get_or_create_account_found db (ParsedPosting.account p))
    as (a & Ha & Hfind).
  destruct (get_or_create_account_tables db (ParsedPosting.account p))
    as (Ht & Hp & Hb).
  destruct (get_or_create_account_grows db (ParsedPosting.account p))
    as (l & Hl).
  pose proof (get_or_create_account_ok db (ParsedPosting.account p)) as Hok.
  apply account_by_path_some in Hfind as [Hin Hpath].
  destruct (get_or_create_account db (ParsedPosting.account p)) as [o db1].
  simpl in Ha, Ht, Hp, Hb, Hl, Hok, Hin. subst o.
  eexists _, _, a, l. split; [reflexivity|]. unfold add_posting.
  cbn [Session.postings Session.accounts Session.transactions
       Session.account_balances PostingModel.account_id
       PostingModel.transaction_id PostingModel.id].
  rewrite Hp, Ht, Hb.
  repeat (split; [first [assumption|reflexivity]|]). exact Hok.
Qed.

Lemma links_grows db db' l tx p r :
  Session.accounts db' = Session.accounts db ++ l ->
  store.links db tx p r -> store.links db' tx p r.
Proof.
  intros Hl (Ht & a & Ha & Hrest). split; [exact Ht|]. exists a.
  rewrite Hl. split; [apply in_or_app; now left|exact Hrest].
Qed.

Lemma create_postings_full tx ps : forall db,
  exists db' rows l,
    create_postings tx db ps = (Ok tt, db')
    /\ Session.postings db' = Session.postings db ++ rows
    /\ Session.accounts db' = Session.accounts db ++ l
    /\ Session.transactions db' = Session.transactions db
    /\ Session.account_balances db' = Session.account_balances db
    /\ Forall2 (store.links db' tx) ps rows
    /\ (store.well_formed db ->
        (exists t, In t (Session.transactions db)
                   /\ Transaction.id t = Transaction.id tx) ->
        store.well_formed db').
Proof.
  induction ps as [|p ps IH]; intros db; simpl.
  - exists db, [], []. rewrite !app_nil_r.
    repeat (split; [reflexivity|]). split; [exact (List.Forall2_nil _)|tauto].
  - destruct (create_posting_full tx db p)
      as (db1 & r & a & l1 & -> & Hp1 & Ha1 & Ht1 & Hb1 & Hin & Hpath & Hacc
          & Htx & Hid & Hok1).
    destruct (IH db1) as (db2 & rows & l2 & -> & Hp2 & Ha2 & Ht2 & Hb2 & Hrows
                          & Hok2).
    exists db2, (r :: rows), (l1 ++ l2). split; [reflexivity|].
    rewrite Hp2, Hp1, Ha2, Ha1, Ht2, Ht1, Hb2, Hb1, <- !app_assoc.
    repeat (split; [reflexivity|]). split.
    + constructor; [|exact Hrows].
      apply (links_grows db1 db2 l2); [exact Ha2|].
      split; [exact Htx|]. exists a. auto.
    + intros Hwf Htin. apply Hok2.
      * apply (posting_row_ok db db1 l1 r); try assumption.
        -- apply Hok1, Hwf.
        -- exists a. auto.
        -- destruct Htin as (t & Hin' & Heq). exists t. split; congruence.
      * now rewrite Ht1.
Qed.

Lemma set_missing_account amount currency p :
  ParsedPosting.account
    (if has_amount p then p
     else ParsedPosting.mk (ParsedPosting.account p) (Some amount) currency)
  = ParsedPosting.account p.
Proof. now destruct (has_amount p). Qed.

Lemma Forall2_map_self {A} (R : A -> A -> Prop) (f : A -> A) l :
  (forall x, R x (f x)) -> Forall2 R l (map f l).
Proof. intros H. induction l; simpl; constructor; auto. Qed.

(** What [get_or_create_transaction] does with a transaction whose
    hash is not in the table. *)
Lemma get_or_create_transaction_new db t :
  transaction_by_hash db (parser.calculate_hash t) = None ->
  let tx := Transaction.mk
              (models.next_id (map Transaction.id (Session.transactions db)))
              (ParsedTransaction.date t) (ParsedTransaction.payee t)
              (Some (parser.calculate_hash t)) in
  (1 < store.without_amount t
   /\ get_or_create_transaction db t
      = (Ok None,
         Session.mk (Session.accounts db) (Session.transactions db ++ [tx])
           (Session.postings db) (Session.account_balances db)))
  \/ (store.without_amount t <= 1
      /\ exists db' rows l,
           get_or_create_transaction db t = (Ok (Some tx), db')
           /\ Session.transactions db' = Session.transactions db ++ [tx]
           /\ Session.postings db' = Session.postings db ++ rows
           /\ Session.accounts db' = Session.accounts db ++ l
           /\ Session.account_balances db' = Session.account_balances db
           /\ Forall2 (store.links db' tx) (ParsedTransaction.postings t) rows
           /\ (store.well_formed db -> store.well_formed db')).
Proof.
  intros Hnew tx.
  destruct (Nat.ltb_spec 1 (store.without_amount t)) as [Hmany|Hfew].
  { left. split; [exact Hmany|]. now apply rejected_transaction_is_flushed. }
  right. split; [exact Hfew|].
  unfold get_or_create_transaction. rewrite Hnew. cbv zeta.
  pose proof (add_transaction_ok db (ParsedTransaction.date t)
                (ParsedTransaction.payee t) _ Hnew) as Hadd.
  unfold add_transaction in *. cbn [snd] in Hadd. fold tx in Hadd |- *.
  set (db1 := Session.mk _ _ _ _) in *.
  assert (Hpersist : forall ps,
             Forall2 (fun p q => ParsedPosting.account q = ParsedPosting.account p)
               (ParsedTransaction.postings t) ps ->
             exists db' rows l,
               match create_postings tx db1 ps with
               | (Ok _, db2) => (Ok (Some tx), db2)
               | (Raise e, db2) => (Raise e, db2)
               end = (Ok (Some tx), db')
               /\ Session.transactions db' = Session.transactions db ++ [tx]
               /\ Session.postings db' = Session.postings db ++ rows
               /\ Session.accounts db' = Session.accounts db ++ l
               /\ Session.account_balances db' = Session.account_balances db
               /\ Forall2 (store.links db' tx) (ParsedTransaction.postings t) rows
               /\ (store.well_formed db -> store.well_formed db')).
  { intros ps Hps.
    destruct (create_postings_full tx ps db1)
      as (db2 & rows & l & -> & Hp & Ha & Ht & Hb & Hrows & Hok).
    exists db2, rows, l. split; [reflexivity|].
    split; [exact Ht|]. split; [exact Hp|]. split; [exact Ha|].
    split; [exact Hb|]. split.
    - clear - Hps Hrows. revert rows Hrows.
      induction Hps as [|p q ps' qs Hpq Hps IH]; intros rows Hrows;
        inversion Hrows as [|? r ? rs Hl Hrs]; subst; constructor.
      + destruct Hl as (Htx & a & Ha & Hpath & Hid). split; [exact Htx|].
        exists a. repeat split; congruence.
      + now apply IH.
    - intros Hwf. apply Hok; [now apply Hadd|].
      exists tx. split; [|reflexivity]. subst db1. cbn [Session.transactions].
      apply in_or_app. right. now left. }
  unfold store.without_amount in Hfew.
  destruct (_ && _).
  - apply Hpersist. unfold set_missing. apply Forall2_map_self.
    intros p. apply set_missing_account.
  - destruct (Nat.ltb_spec 1 (List.length
                (List.filter (fun p => negb (has_amount p))
                   (ParsedTransaction.postings t)))) as [H|_]; [lia|].
    apply Hpersist.
    rewrite <- (map_id (ParsedTransaction.postings t)) at 2.
    now apply Forall2_map_self.
Qed.

Lemma get_or_create_transaction_ok db t :
  store.well_formed db ->
  store.well_formed (snd (get_or_create_transaction db t)).
Proof.
  intros Hwf.
  destruct (transaction_by_hash db (parser.calculate_hash t)) as [x|] eqn:E.
  - unfold get_or_create_transaction. now rewrite E.
  - destruct (get_or_create_transaction_new db t E)
      as [(_ & ->)|(_ & db' & rows & l & -> & _ & _ & _ & _ & _ & Hok)].
    + exact (add_transaction_ok db _ _ _ E Hwf).
    + now apply Hok.
Qed.

Lemma get_or_create_transaction_extends db t :
  store.extends db (snd (get_or_create_transaction db t)).
Proof.
  destruct (transaction_by_hash db (parser.calculate_hash t)) as [x|] eqn:E.
  - unfold get_or_create_transaction. rewrite E. cbn [snd].
    repeat split; exists []; now rewrite app_nil_r.
  - destruct (get_or_create_transaction_new db t E)
      as [(_ & ->)|(_ & db' & rows & l & -> & Ht & Hp & Ha & _)]; cbn [snd].
    + split; [|split]; cbn [Session.accounts Session.transactions
                              Session.postings];
        [exists []; now rewrite app_nil_r|eexists; reflexivity
        |exists []; now rewrite app_nil_r].
    + split; [|split]; eauto.
Qed.

End transaction_rows.

(** X13.  [get_or_create_transaction] keeps the constraints of the
    schema: in every table the keys stay distinct, no two accounts have
    the same path and no two transactions the same hash, every posting
    row points to an account and to a transaction of the store, and no
    account has two balance rows. *)
Theorem get_or_create_transaction_keeps_constraints :
  forall (db : models.Session.t) (t : parser.Transaction.t),
    store.well_formed db ->
    store.well_formed (snd (importer.get_or_create_transaction db t)).
Proof. exact get_or_create_transaction_ok. Qed.

Lemma get_or_create_transaction_keeps_constraints_witness :
  store.well_formed models.Session.empty
  /\ store.well_formed
       (snd (importer.get_or_create_transaction models.Session.empty
               examples.salary)).
Proof.
  assert (H : store.well_formed models.Session.empty) by empty_tables.
  split; [exact H|].
  exact (get_or_create_transaction_keeps_constraints models.Session.empty
           examples.salary H).
Defined.

(** X14.  When [get_or_create_transaction] returns a row, the row is the
    last of the table of transactions, with the date, the payee and the
    hash of the parsed transaction, and one posting row was added for
    each parsed posting, in order: each points to the new transaction
    and to the account whose path is the account of its posting.
    Nothing else changed: the rows that were there are still there, in
    place, and no balance row was touched. *)
Theorem get_or_create_transaction_stores :
  forall (db db' : models.Session.t) (t : parser.Transaction.t)
         (tx : models.Transaction.t),
    importer.get_or_create_transaction db t = (Ok (Some tx), db') ->
    tx = models.Transaction.mk
           (models.next_id (map models.Transaction.id (models.Session.transactions db)))
           (parser.Transaction.date t) (parser.Transaction.payee t)
           (Some (parser.calculate_hash t))
    /\ models.Session.transactions db'
       = (models.Session.transactions db ++ [tx])%list
    /\ (exists rows,
          models.Session.postings db' = (models.Session.postings db ++ rows)%list
          /\ Forall2 (store.links db' tx) (parser.Transaction.postings t) rows)
    /\ (exists created,
          models.Session.accounts db' = (models.Session.accounts db ++ created)%list)
    /\ models.Session.account_balances db' = models.Session.account_balances db.
Proof.
  intros db db' t tx H.
  destruct (importer.transaction_by_hash db (parser.calculate_hash t))
    as [x|] eqn:E.
  - unfold importer.get_or_create_transaction in H. rewrite E in H.
    discriminate.
  - destruct (get_or_create_transaction_new db t E)
      as [(_ & H')|(_ & db2 & rows & l & H' & Ht & Hp & Ha & Hb & Hrows & _)];
      rewrite H' in H; [discriminate|].
    injection H as <- <-. split; [reflexivity|]. split; [exact Ht|].
    split; [eauto|]. split; [eauto|exact Hb].
Qed.

Lemma get_or_create_transaction_stores_witness :
  exists tx db',
    importer.get_or_create_transaction models.Session.empty examples.salary
    = (Ok (Some tx), db')
    /\ models.Session.transactions db' = [tx]
    /\ exists rows,
         models.Session.postings db' = rows
         /\ Forall2 (store.links db' tx)
              (parser.Transaction.postings examples.salary) rows.
Proof.
  destruct (importer.get_or_create_transaction models.Session.empty
              examples.salary) as [[[tx|]|e] db'] eqn:H;
    [|vm_compute in H; discriminate H..].
  exists tx, db'. split; [reflexivity|].
  destruct (get_or_create_transaction_stores _ _ _ _ H)
    as (_ & Ht & (rows & Hp & Hrows) & _).
  split; [exact Ht|]. exists rows. split; [exact Hp|exact Hrows].
Defined.


Section cached_balances.

Import importer.
Local Open Scope list_scope.

Lemma set_balance_ids id balance currency rows :
  map AccountBalance.id (set_balance id balance currency rows)
  = map AccountBalance.id rows.
Proof.
  induction rows as [|r rows IH]; simpl; [reflexivity|].
  destruct (Nat.eqb _ _); simpl; [reflexivity|now rewrite IH].
Qed.

Lemma set_balance_account_ids id balance currency rows :
  map AccountBalance.account_id (set_balance id balance currency rows)
  = map AccountBalance.account_id rows.
Proof.
  induction rows as [|r rows IH]; simpl; [reflexivity|].
  destruct (Nat.eqb_spec (AccountBalance.account_id r) id) as [->|_]; simpl;
    [reflexivity|now rewrite IH].
Qed.

(** Writing to a row what it holds changes nothing. *)
Lemma set_balance_fixed id rows r :
  find (fun x => Nat.eqb (AccountBalance.account_id x) id) rows = Some r ->
  set_balance id (AccountBalance.balance r) (AccountBalance.currency r) rows
  = rows.
Proof.
  induction rows as [|x rows IH]; simpl; [discriminate|].
  destruct (Nat.eqb_spec (AccountBalance.account_id x) id) as [Hx|_].
  - intros [= ->]. destruct r; simpl in *. now subst.
  - intros H. now rewrite IH.
Qed.

Lemma calculate_account_balance_same db db' id :
  Session.accounts db' = Session.accounts db ->
  Session.postings db' = Session.postings db ->
  calculate_account_balance db' id = calculate_account_balance db id.
Proof.
  unfold calculate_account_balance, account_by_id. now intros -> ->.
Qed.

Lemma caches_same db db' rows id :
  Session.accounts db' = Session.accounts db ->
  Session.postings db' = Session.postings db ->
  spec.caches db rows id -> spec.caches db' rows id.
Proof.
  intros Ha Hp. unfold spec.caches.
  now rewrite (calculate_account_balance_same db db' id Ha Hp).
Qed.

(** A store whose balance rows hold the balance of every account is
    left as it is. *)
Lemma update_account_balances_fixed db rows : forall accounts,
  (forall a, In a accounts -> spec.caches db rows (Account.id a)) ->
  fold_left (update_account_balance db) accounts (rows, []) = (rows, []).
Proof.
  induction accounts as [|a accounts IH]; intros H; simpl; [reflexivity|].
  destruct (H a (or_introl eq_refl)) as (r & Hfind & Hbal & Hcur).
  destruct (calculate_account_balance db (Account.id a)) as [bal cur].
  simpl in Hbal, Hcur. rewrite Hfind. subst bal cur.
  rewrite (set_balance_fixed _ _ _ Hfind).
  apply IH. intros b Hb. apply H. now right.
Qed.

Lemma update_account_balances_fixed_point db :
  (forall a, In a (Session.accounts db) ->
             spec.caches db (Session.account_balances db) (Account.id a)) ->
  update_account_balances db = db.
Proof.
  intros H. unfold update_account_balances.
  rewrite (update_account_balances_fixed db _ _ H), app_nil_r.
  now destruct db.
Qed.

Lemma not_in_account_ids id rows :
  find (fun r => Nat.eqb (AccountBalance.account_id r) id) rows = None ->
  ~ In id (map AccountBalance.account_id rows).
Proof.
  intros H Hin. apply in_map_iff in Hin as (r & <- & Hr).
  pose proof (find_none _ _ H r Hr) as Hf. simpl in Hf.
  rewrite Nat.eqb_refl in Hf. discriminate.
Qed.

Lemma update_account_balance_inv db accounts done st a :
  ~ In (Account.id a) (map Account.id done) ->
  In a accounts ->
  store.balances_loop accounts done st ->
  store.balances_loop accounts (done ++ [a]) (update_account_balance db st a).
Proof.
  destruct st as [rows added]. unfold store.balances_loop.
  cbn [fst snd]. intros Hnew Ha (Hid & Hacc & Hadded & Hall).
  unfold update_account_balance.
  destruct (calculate_account_balance db (Account.id a)) as [bal cur].
  destruct (find _ rows) as [r|] eqn:E; cbn [fst snd].
  - rewrite !map_app, set_balance_ids, set_balance_account_ids, <- !map_app.
    split; [exact Hid|]. split; [exact Hacc|]. split.
    + eapply List.Forall_impl; [|exact Hadded]. intros b Hb; rewrite ?map_app; apply in_or_app; now left.
    + rewrite List.Forall_forall in Hall |- *. intros b Hb.
      assert (Hm : In (AccountBalance.account_id b)
                     (map AccountBalance.account_id
                        (set_balance (Account.id a) bal cur rows ++ added)))
        by (apply in_map; exact Hb).
      rewrite map_app, set_balance_account_ids, <- map_app in Hm.
      apply in_map_iff in Hm as (b' & Heq & Hb'). rewrite <- Heq.
      now apply Hall.
  - rewrite app_assoc, !map_app. cbn [map AccountBalance.id
                                      AccountBalance.account_id].
    rewrite <- !map_app. split; [|split; [|split]].
    + apply NoDup_snoc; [exact Hid|]. apply next_id_fresh.
    + apply NoDup_snoc; [exact Hacc|]. rewrite map_app. intros Hin.
      apply in_app_or in Hin as [Hin|Hin].
      * now apply (not_in_account_ids _ _ E).
      * apply in_map_iff in Hin as (b & Heq & Hb).
        rewrite List.Forall_forall in Hadded. specialize (Hadded b Hb).
        rewrite Heq in Hadded. contradiction.
    + apply List.Forall_app. split.
      * eapply List.Forall_impl; [|exact Hadded]. intros b Hb; rewrite ?map_app; apply in_or_app; now left.
      * constructor; [|constructor]. cbn [AccountBalance.account_id].
        rewrite ?map_app. apply in_or_app. right. now left.
    + apply List.Forall_app. split; [exact Hall|].
      constructor; [|constructor]. cbn [AccountBalance.account_id].
      now apply in_map.
Qed.

Lemma update_account_balances_inv db accounts : forall rest done st,
  NoDup (map Account.id (done ++ rest)) ->
  (forall a, In a rest -> In a accounts) ->
  store.balances_loop accounts done st ->
  store.balances_loop accounts (done ++ rest)
    (fold_left (update_account_balance db) rest st).
Proof.
  induction rest as [|a rest IH]; intros done st Hnd Hin Hst; simpl.
  - now rewrite app_nil_r.
  - replace (done ++ a :: rest) with ((done ++ [a]) ++ rest) in *
      by now rewrite <- app_assoc.
    apply IH; [exact Hnd|intros b Hb; apply Hin; now right|].
    apply update_account_balance_inv; [|apply Hin; now left|exact Hst].
    rewrite !map_app in Hnd. apply NoDup_app in Hnd as (Hnd & _ & _).
    apply NoDup_app in Hnd as (_ & Hnd & _). intros H.
    apply list_elem_of_In in H. apply (Hnd _ H). simpl. left.
Qed.

Lemma update_account_balances_ok db :
  store.well_formed db -> store.well_formed (update_account_balances db).
Proof.
  intros (Ha & Ht & Hp & Hbi & Hba & Hbk).
  pose proof (update_account_balances_inv db (Session.accounts db)
                (Session.accounts db) [] (Session.account_balances db, []))
    as H.
  unfold update_account_balances. destruct (fold_left _ _ _) as [rows added].
  destruct H as (H1 & H2 & _ & H3).
  - apply Ha.
  - auto.
  - unfold store.balances_loop. cbn [fst snd]. rewrite app_nil_r.
    split; [exact Hbi|]. split; [exact Hba|]. split; [constructor|].
    rewrite List.Forall_forall. intros b Hb.
    destruct (Hbk b Hb) as (a & Hin & <-). now apply in_map.
  - cbn [fst snd] in *. split; [exact Ha|]. split; [exact Ht|].
    split; [exact Hp|]. split; [exact H1|]. split; [exact H2|].
    intros b Hb. rewrite List.Forall_forall in H3. specialize (H3 b Hb).
    apply in_map_iff in H3 as (a & Heq & Hin). eauto.
Qed.

End cached_balances.

(** X16.  After [update_account_balances] every account of the store
    has a balance row, and the first row of the account, the one the
    endpoints read, holds the balance and the currency that
    [calculate_account_balance] returns for the account: the display
    balance. *)
Theorem update_account_balances_caches_every_account :
  forall (db : models.Session.t) (a : models.Account.t),
    In a (models.Session.accounts db) ->
    spec.caches db
      (models.Session.account_balances (importer.update_account_balances db))
      (models.Account.id a).
Proof. exact update_account_balances_caches_display. Qed.

Lemma update_account_balances_caches_every_account_witness :
  In (models.Account.mk 7 "Salary" "Income:Salary" (Some 6))
    (models.Session.accounts examples.imported_store)
  /\ spec.caches examples.imported_store
       (models.Session.account_balances
          (importer.update_account_balances examples.imported_store))
       7.
Proof.
  assert (H : In (models.Account.mk 7 "Salary" "Income:Salary" (Some 6))
                (models.Session.accounts examples.imported_store))
    by (vm_compute; tauto).
  split; [exact H|].
  exact (update_account_balances_caches_every_account
           examples.imported_store _ H).
Defined.

(** X17.  [update_account_balances] is idempotent: run on the store it
    left, it changes nothing.  It never touches the accounts, the
    transactions and the postings. *)
Theorem update_account_balances_idempotent :
  forall db : models.Session.t,
    importer.update_account_balances (importer.update_account_balances db)
    = importer.update_account_balances db
    /\ models.Session.accounts (importer.update_account_balances db)
       = models.Session.accounts db
    /\ models.Session.transactions (importer.update_account_balances db)
       = models.Session.transactions db
    /\ models.Session.postings (importer.update_account_balances db)
       = models.Session.postings db.
Proof.
  intros db.
  destruct (update_account_balances_transactions db) as (Ht & Hp & Ha).
  split; [|auto]. apply update_account_balances_fixed_point.
  intros a Hin. rewrite Ha in Hin.
  apply (caches_same db); [exact Ha|exact Hp|].
  now apply update_account_balances_caches_display.
Qed.

(** X18.  [update_account_balances] keeps the constraints of the schema.
    In particular it adds at most one balance row for an account, which
    rests on the keys of the accounts being distinct: the rows added in
    one run are not seen by the queries of that run. *)
Theorem update_account_balances_keeps_constraints :
  forall db : models.Session.t,
    store.well_formed db ->
    store.well_formed (importer.update_account_balances db).
Proof. exact update_account_balances_ok. Qed.

Lemma update_account_balances_keeps_constraints_witness :
  store.well_formed examples.one_account
  /\ store.well_formed (importer.update_account_balances examples.one_account).
Proof.
  assert (H : store.well_formed examples.one_account).
  { split; [|empty_tables].
    split; [apply NoDup_singleton|]. split; [apply NoDup_singleton|].
    intros a [<-|[]]. reflexivity. }
  split; [exact H|].
  exact (update_account_balances_keeps_constraints examples.one_account H).
Defined.

Section runs.

Import importer.
Local Open Scope list_scope.

Lemma extends_refl db : store.extends db db.
Proof. repeat split; exists []; now rewrite app_nil_r. Qed.

Lemma extends_trans db1 db2 db3 :
  store.extends db1 db2 -> store.extends db2 db3 -> store.extends db1 db3.
Proof.
  intros ((a & Ha) & (t & Ht) & (p & Hp)) ((a' & Ha') & (t' & Ht') & (p' & Hp')).
  split; [|split]; [exists (a ++ a')|exists (t ++ t')|exists (p ++ p')];
    rewrite app_assoc; congruence.
Qed.

Lemma import_loop_invariant (P : Session.t -> Prop) :
  (forall db t, P db -> P (snd (get_or_create_transaction db t))) ->
  forall pts st,
    P (snd st) ->
    P (snd (fold_left (import_transaction get_or_create_transaction) pts st)).
Proof.
  intros Hstep. induction pts as [|t pts IH]; intros st H; simpl; [exact H|].
  apply IH. rewrite import_transaction_snd. now apply Hstep.
Qed.

Lemma import_loop_counts pts : forall i s db,
  exists i' s' db',
    fold_left (import_transaction get_or_create_transaction) pts (i, s, db)
    = (i', s', db')
    /\ i' + s' = i + s + List.length pts.
Proof.
  induction pts as [|t pts IH]; intros i s db; simpl.
  - exists i, s, db. split; [reflexivity|lia].
  - destruct (get_or_create_transaction db t) as [[[tx|]|e] db1];
      match goal with
      | |- context [fold_left _ pts (?i1, ?s1, db1)] =>
          destruct (IH i1 s1 db1) as (i' & s' & db' & -> & Hsum)
      end; exists i', s', db'; (split; [reflexivity|lia]).
Qed.

(** The three ways a run of [import_ledger_file] ends. *)
Lemma import_ledger_file_run fs db file_path update_balances :
  let path := match file_path with
              | Some p => p
              | None => settings_ledger_file_path
              end in
  match fs path with
  | None =>
      import_ledger_file fs db file_path update_balances
      = (Raise FileNotFoundError, db)
  | Some lines =>
      match parser.parse_ledger_file lines with
      | Raise e =>
          import_ledger_file fs db file_path update_balances = (Raise e, db)
      | Ok parsed =>
          exists i s db1,
            fold_left (import_transaction get_or_create_transaction) parsed
              (0, 0, db) = (i, s, db1)
            /\ i + s = List.length parsed
            /\ import_ledger_file fs db file_path update_balances
               = (Ok (mk_counts i s (List.length parsed)),
                  if update_balances then update_account_balances db1
                  else db1)
      end
  end.
Proof.
  intros path. subst path. unfold import_ledger_file, import_ledger_file_with.
  destruct (fs _) as [lines|]; [|reflexivity].
  destruct (parser.parse_ledger_file lines) as [parsed|e]; [|reflexivity].
  destruct (import_loop_counts parsed 0 0 db) as (i & s & db1 & H & Hsum).
  exists i, s, db1. rewrite H. repeat split. exact Hsum.
Qed.

Lemma import_ledger_file_store fs db file_path update_balances :
  snd (import_ledger_file fs db file_path update_balances) = db
  \/ exists parsed i s,
       let db1 := snd (fold_left (import_transaction get_or_create_transaction)
                         parsed (i, s, db)) in
       snd (import_ledger_file fs db file_path update_balances)
       = if update_balances then update_account_balances db1 else db1.
Proof.
  pose proof (import_ledger_file_run fs db file_path update_balances) as H.
  cbv zeta in H. destruct (fs _) as [lines|]; [|left; now rewrite H].
  destruct (parser.parse_ledger_file lines) as [parsed|e];
    [|left; now rewrite H].
  destruct H as (i & s & db1 & Hfold & _ & ->). right.
  exists parsed, 0, 0. cbv zeta. now rewrite Hfold.
Qed.

Lemma import_ledger_file_ok fs db file_path update_balances :
  store.well_formed db ->
  store.well_formed (snd (import_ledger_file fs db file_path update_balances)).
Proof.
  intros Hwf.
  destruct (import_ledger_file_store fs db file_path update_balances)
    as [->|(parsed & i & s & ->)]; [exact Hwf|].
  assert (H1 : store.well_formed
                 (snd (fold_left (import_transaction get_or_create_transaction)
                         parsed (i, s, db))))
    by (apply import_loop_invariant;
        [apply get_or_create_transaction_ok|exact Hwf]).
  destruct update_balances; [|exact H1].
  now apply update_account_balances_ok.
Qed.

Lemma import_ledger_file_extends fs db file_path update_balances :
  store.extends db (snd (import_ledger_file fs db file_path update_balances)).
Proof.
  destruct (import_ledger_file_store fs db file_path update_balances)
    as [->|(parsed & i & s & ->)]; [apply extends_refl|].
  assert (H1 : store.extends db
                 (snd (fold_left (import_transaction get_or_create_transaction)
                         parsed (i, s, db)))).
  { apply (import_loop_invariant (store.extends db)); [|apply extends_refl].
    intros db1 t H. eapply extends_trans; [exact H|].
    apply get_or_create_transaction_extends. }
  destruct update_balances; [|exact H1].
  destruct (update_account_balances_transactions
              (snd (fold_left (import_transaction get_or_create_transaction)
                      parsed (i, s, db)))) as (Ht & Hp & Ha).
  unfold store.extends. rewrite Ht, Hp, Ha. exact H1.
Qed.









End runs.

(** X19.  [import_ledger_file] keeps the constraints of the schema,
    however the run ends and whether or not the balances are updated. *)
Theorem import_ledger_file_keeps_constraints :
  forall (fs : importer.files) (db : models.Session.t)
         (file_path : option string) (update_balances : bool),
    store.well_formed db ->
    store.well_formed
      (snd (importer.import_ledger_file fs db file_path update_balances)).
Proof. exact import_ledger_file_ok. Qed.

Lemma import_ledger_file_keeps_constraints_witness :
  store.well_formed models.Session.empty
  /\ store.well_formed
       (snd (importer.import_ledger_file (examples.disk examples.ledger)
               models.Session.empty (Some "ledger.dat") true)).
Proof.
  assert (H : store.well_formed models.Session.empty) by empty_tables.
  split; [exact H|].
  exact (import_ledger_file_keeps_constraints (examples.disk examples.ledger)
           models.Session.empty (Some "ledger.dat") true H).
Defined.

(** X20.  [import_ledger_file] only appends: the accounts, the
    transactions and the postings that were in the store are still
    there after the run, unchanged and in place, before the rows of the
    run. *)
Theorem import_ledger_file_appends :
  forall (fs : importer.files) (db : models.Session.t)
         (file_path : option string) (update_balances : bool),
    store.extends db
      (snd (importer.import_ledger_file fs db file_path update_balances)).
Proof. exact import_ledger_file_extends. Qed.




